(** * Network versus mode of the Mugen engine (src/mugen/network.cpp)

    A shallow embedding of the packet codec ([NetworkBuffer], [readPacket],
    [sendPacket]) and of the two stage observers ([NetworkServerObserver],
    [NetworkClientObserver]) that keep a server and a client in step.

    Conventions.
    - C++ integers are [Z] values; each conversion to a fixed width is
      written with [wrap16s] (int16_t), [wrap16u] (uint16_t), [wrap32]
      (uint32_t) or [wrap64] (uint64_t).
    - [int] values are kept exact (signed overflow is undefined in C++ and
      needs buffers of 2 GiB to arise).
    - Memory blocks (the [char] arrays behind a buffer) are [list byte].
    - [std::map] is stdpp's [gmap], a nullable [ReferenceCount<T>] is
      [option T].
    - The members of an observer are the fields of the record [t] inside a
      module named after its class, next to its methods.  Methods that run
      under the observer's lock are atomic functions on that record; the order
      in which the threads call them is left to the caller of the model.
    - What a method does outside the observer (calls into the stage and the
      sound system, lines of the debug log) is recorded in a trace next to
      the stage; clock readings are arguments. *)

From Stdlib Require Import ZArith Lia.
From Stdlib Require Import Strings.Byte.
From stdpp Require Import base option list gmap.

Local Open Scope Z_scope.

(* ===================================================================== *)
(** ** Fixed-width integers *)

Definition wrap16u (v : Z) : Z := v mod 65536.
Definition wrap16s (v : Z) : Z := (v + 32768) mod 65536 - 32768.
Definition wrap32 (v : Z) : Z := v mod 4294967296.
Definition wrap64 (v : Z) : Z := v mod 18446744073709551616.

(** The value of a byte, 0..255, and the byte holding the low eight bits of
    an integer. *)
Definition Z_of_byte (b : byte) : Z := Z.of_N (Byte.to_N b).
Definition byte_of_Z (v : Z) : byte :=
  default x00 (Byte.of_N (Z.to_N (v mod 256))).

(* ===================================================================== *)
(** ** Network helpers (util/network/network.h) *)

(** Modelled from the spec: [Network::dump16], [Network::dump32],
    [Network::parse16] and [Network::parse32] are declared in
    util/network/network.h, which is not part of the sources.  The spec fixes
    what they do: 16-bit and 32-bit integers in network byte order (most
    significant byte first); the parsers return the position just after the
    value, so the cursor moves by the size of the value. *)
Definition dump16 (v : Z) : list byte :=
  [byte_of_Z (v / 256); byte_of_Z v].

Definition dump32 (v : Z) : list byte :=
  [byte_of_Z (v / 16777216); byte_of_Z (v / 65536);
   byte_of_Z (v / 256); byte_of_Z v].

Definition parse16 (where_ : list byte) : Z :=
  match where_ with
  | hi :: lo :: _ => Z_of_byte hi * 256 + Z_of_byte lo
  | _ => 0
  end.

Definition parse32 (where_ : list byte) : Z :=
  match where_ with
  | b3 :: b2 :: b1 :: b0 :: _ =>
      Z_of_byte b3 * 16777216 + Z_of_byte b2 * 65536
      + Z_of_byte b1 * 256 + Z_of_byte b0
  | _ => 0
  end.

(* ===================================================================== *)
(** ** NetworkBuffer *)

(** The characters of a C string: the bytes before the first zero byte, as
    [std::string (const char * )] reads them. *)
Fixpoint c_string (mem : list byte) : list byte :=
  match mem with
  | [] => []
  | c :: rest => if Byte.eqb c x00 then [] else c :: c_string rest
  end.

(** [memcpy (mem + pos, data, |data|)] on a block of memory. *)
Definition poke (pos : Z) (data mem : list byte) : list byte :=
  take (Z.to_nat pos) mem ++ data
  ++ drop (Z.to_nat pos + length data)%nat mem.

(** The members of [class NetworkBuffer].  [buf_length] is the member
    [length] (the cursor, for writing and for reading alike), [buf_buffer] the
    array [buffer] of [buf_actualLength] bytes, [buf_contains] the number of
    bytes the last [readAll] received.  Storage that C++ leaves uninitialised
    is filled with zero bytes. *)
Record NetworkBuffer := mkNetworkBuffer {
  buf_length : Z;
  buf_buffer : list byte;
  buf_actualLength : Z;
  buf_contains : Z;
}.

Module Buffer.

(** [NetworkBuffer(int size = 128)] *)
Definition new (size : Z) : NetworkBuffer :=
  {| buf_length := 0;
     buf_buffer := replicate (Z.to_nat size) x00;
     buf_actualLength := size;
     buf_contains := 0 |}.

Definition getLength (b : NetworkBuffer) : Z := buf_length b.

(** [increaseBuffer]: a new block of [max (2 * actualLength)
    (actualLength + minimum)] bytes that keeps the first [length] bytes. *)
Definition increaseBuffer (minimum : Z) (b : NetworkBuffer) : NetworkBuffer :=
  let newLength :=
    Z.max (buf_actualLength b * 2) (buf_actualLength b + minimum) in
  {| buf_length := buf_length b;
     buf_buffer :=
       poke 0 (take (Z.to_nat (buf_length b)) (buf_buffer b))
            (replicate (Z.to_nat newLength) x00);
     buf_actualLength := newLength;
     buf_contains := buf_contains b |}.

(** [checkBuffer]: make sure N bytes can be stored. *)
Definition checkBuffer (bytes : Z) (b : NetworkBuffer) : NetworkBuffer :=
  if buf_actualLength b <=? buf_length b + bytes
  then increaseBuffer bytes b else b.

(** The store shared by the writers: [data] is copied to the cursor and the
    cursor moves past it. *)
Definition store (data : list byte) (b : NetworkBuffer) : NetworkBuffer :=
  {| buf_length := buf_length b + Z.of_nat (length data);
     buf_buffer := poke (buf_length b) data (buf_buffer b);
     buf_actualLength := buf_actualLength b;
     buf_contains := buf_contains b |}.

(** [operator<<(int16_t)] *)
Definition write16 (data : Z) (b : NetworkBuffer) : NetworkBuffer :=
  store (dump16 data) (checkBuffer 2 b).

(** [operator<<(uint32_t)] *)
Definition write32 (data : Z) (b : NetworkBuffer) : NetworkBuffer :=
  store (dump32 data) (checkBuffer 4 b).

(** [add (data, size)] with [size = |data|]. *)
Definition add (data : list byte) (b : NetworkBuffer) : NetworkBuffer :=
  store data (checkBuffer (Z.of_nat (length data)) b).

(** [operator<<(const string &)]: the size as an [int16_t], then the raw
    bytes. *)
Definition writeString (str : list byte) (b : NetworkBuffer) : NetworkBuffer :=
  add str (write16 (wrap16s (Z.of_nat (length str))) b).

(** Moves the cursor, nothing else. *)
Definition advance (n : Z) (b : NetworkBuffer) : NetworkBuffer :=
  {| buf_length := buf_length b + n;
     buf_buffer := buf_buffer b;
     buf_actualLength := buf_actualLength b;
     buf_contains := buf_contains b |}.

(** [operator>>(int16_t &)]: the value read, and the buffer afterwards.
    The guard is [(int)(length + sizeof(data)) < contains]; when it fails
    the value is [-1] and the cursor stays. *)
Definition read16 (b : NetworkBuffer) : Z * NetworkBuffer :=
  if buf_length b + 2 <? buf_contains b
  then (wrap16s (parse16 (drop (Z.to_nat (buf_length b)) (buf_buffer b))),
        advance 2 b)
  else (wrap16s (-1), b).

(** [operator>>(uint32_t &)]; here [data = -1] stores [UINT32_MAX]. *)
Definition read32 (b : NetworkBuffer) : Z * NetworkBuffer :=
  if buf_length b + 4 <? buf_contains b
  then (wrap32 (parse32 (drop (Z.to_nat (buf_length b)) (buf_buffer b))),
        advance 4 b)
  else (wrap32 (-1), b).

(** [operator>>(string &)]: [None] stands for a string left as it was.  The
    bytes are copied to a zero-terminated array and read back as a C
    string. *)
Definition readString (b : NetworkBuffer) : option (list byte) * NetworkBuffer :=
  let '(size, b) := read16 b in
  if (0 <? size) && (buf_length b + size <=? buf_contains b)
  then (Some (c_string (take (Z.to_nat size)
                              (drop (Z.to_nat (buf_length b)) (buf_buffer b)))),
        advance size b)
  else (None, b).

(** Modelled from the spec: [Network::readUptoBytes] is not part of the
    sources; by its name and its use it receives at most [actualLength]
    bytes into the block and returns how many it received.  [incoming] is
    what the socket has to deliver. *)
Definition readAll (incoming : list byte) (b : NetworkBuffer) : NetworkBuffer :=
  let got := take (Z.to_nat (buf_actualLength b)) incoming in
  {| buf_length := buf_length b;
     buf_buffer := poke 0 got (buf_buffer b);
     buf_actualLength := buf_actualLength b;
     buf_contains := Z.of_nat (length got) |}.

(** [send]: the first [length] bytes go to the socket. *)
Definition send (b : NetworkBuffer) : list byte :=
  take (Z.to_nat (getLength b)) (buf_buffer b).

(** The bytes between the cursor and the end of what was received. *)
Definition remaining (b : NetworkBuffer) : Z := buf_contains b - buf_length b.

End Buffer.

(* ===================================================================== *)
(** ** The collaborators of the observers *)

(** The simulation the observers drive: [Mugen::Stage] and the snapshots
    ([Mugen::World]) it produces and restores.  Their classes are declared in
    headers outside the sources; the observers use exactly these members. *)
Class Simulation := {
  World : Type;
  Stage : Type;
  (** [stage.getTicks ()] *)
  getTicks : Stage -> Z;
  (** [stage.logic ()], one tick of the simulation *)
  logic : Stage -> Stage;
  (** [stage.updateState (world)] *)
  updateState : World -> Stage -> Stage;
  (** [stage.snapshotState ()] *)
  snapshotState : Stage -> World;
  (** [world.getStageData ().ticker] *)
  ticker : World -> Z;
}.

(** What the glossary says of a tick, for a [uint32_t] counter: restoring a
    snapshot sets the stage to the snapshot's tick, and one step of the
    simulation advances the tick by one. *)
Class TickLaws (sim : Simulation) : Prop := {
  getTicks_updateState : forall w st, getTicks (updateState w st) = ticker w;
  getTicks_logic : forall st,
    0 <= getTicks st < 4294967296 ->
    getTicks (logic st) = wrap32 (getTicks st + 1);
}.

(** Modelled from the spec: [struct Input] is declared in behavior.h, which is
    not part of the sources.  The spec has it as a fixed set of boolean
    fields compared by value; the fields are the ten that [sendPacket]
    serialises ([input->inputs.a] ... [input->inputs.down]).  The default
    constructor, which gives [lastInput] its first value, is taken to release
    every button. *)
Record Input := mkInput {
  input_a : bool; input_b : bool; input_c : bool;
  input_x : bool; input_y : bool; input_z : bool;
  input_back : bool; input_forward : bool;
  input_up : bool; input_down : bool;
}.

Definition Input_default : Input :=
  mkInput false false false false false false false false false false.

#[global] Instance Input_eq_dec : EqDecision Input.
Proof. solve_decision. Defined.

(** Text and compression: the token writer and reader (util/token.h), the
    serialisation of a world, and LZ4 (util/lz4/lz4.h).  None of them is part
    of the sources. *)
Class Serialization (sim : Simulation) := {
  (** the compact text of the token [(input (a ..) (b ..) ... (down ..))] *)
  inputToString : Input -> list byte;
  (** [filterTokens (world->serialize ())->toStringCompact ()] *)
  worldToString : World -> list byte;
  (** [LZ4_compress (source, dest, isize)]: the bytes written to [dest];
      their number is the value returned *)
  LZ4_compress : list byte -> list byte;
  (** [LZ4_uncompress (source, dest, osize)]: the block [dest] afterwards *)
  LZ4_uncompress : list byte -> list byte -> Z -> list byte;
  (** [World::deserialize (reader.readTokenFromString (text))]; [None] when
      the reader returns no token *)
  worldFromString : list byte -> option World;
}.

(** The contract of LZ4's decoder ("a size-bounded decompression operation"
    in the spec): whatever the source holds, only the first [osize] bytes of
    the destination block can change. *)
Class BoundedDecoder {sim : Simulation} (ser : Serialization sim) : Prop := {
  LZ4_uncompress_length : forall src dest osize,
    length (LZ4_uncompress src dest osize) = length dest;
  LZ4_uncompress_frame : forall src dest osize, 0 <= osize ->
    drop (Z.to_nat osize) (LZ4_uncompress src dest osize)
    = drop (Z.to_nat osize) dest;
}.

(** What a call leaves behind outside the observer: calls into the stage and
    the sound system, and lines written to [Global::debug]. *)
Inductive Site := Snap | Rollback.

Inductive DebugLine :=
| Client_ping (milliseconds : Z)
| Should_not_have_gotten_a_world_packet
| Garbage_message_packet (magic : Z)
| Garbage_udp_packet (magic : Z)
| Error_in_client_read_input_thread.

Inductive Event `{Simulation} :=
| EvUpdateState (site : Site) (world : World)
| EvDisableSounds
| EvLogic (tick : Z)
| EvEnableSounds
| EvDebug (line : DebugLine).

(** The stage and the record of what was done to it.  [EvUpdateState] names
    the place of the call ([Snap]: a newly received snapshot is applied;
    [Rollback]: the held baseline is restored before a replay); [EvLogic]
    names the tick of the stage when [logic] was entered. *)
Record Env `{Simulation} := mkEnv {
  stage : Stage;
  trace : list Event;
}.

Section Effects.
Context `{sim : Simulation}.

Definition emit (ev : Event) (e : Env) : Env :=
  {| stage := stage e; trace := trace e ++ [ev] |}.

Definition call_updateState (site : Site) (w : World) (e : Env) : Env :=
  {| stage := updateState w (stage e);
     trace := trace e ++ [EvUpdateState site w] |}.

Definition call_logic (e : Env) : Env :=
  {| stage := logic (stage e);
     trace := trace e ++ [EvLogic (getTicks (stage e))] |}.

(** [for (uint32_t i = 0; i < n; i++) stage.logic ();] *)
Fixpoint repeat_logic (n : nat) (e : Env) : Env :=
  match n with
  | O => e
  | S n => repeat_logic n (call_logic e)
  end.

(** The block both observers run once inputs were seen (lines 578-585 of
    the server's [beforeLogic], lines 784-791 of the client's):
<<
    if (lastState != NULL && currentTicks > lastState->getStageData().ticker){
        stage.updateState (lastState);
        Mugen::Sound::disableSounds();
        for (uint32_t i = 0; i < currentTicks - lastState->getStageData().ticker; i++){
            stage.logic();
        }
        Mugen::Sound::enableSounds();
    }
>>
    (the snapshot is passed by reference).  The bound of the loop is a
    [uint32_t] difference. *)
Definition rollbackAndReplay (lastState : option World) (currentTicks : Z)
    (e : Env) : Env :=
  match lastState with
  | Some w =>
      if ticker w <? currentTicks then
        let e := call_updateState Rollback w e in
        let e := emit EvDisableSounds e in
        let e := repeat_logic (Z.to_nat (wrap32 (currentTicks - ticker w))) e in
        emit EvEnableSounds e
      else e
  | None => e
  end.

(** The snapshots a trace applied as new baselines, in order. *)
Definition snapped (tr : list Event) : list World :=
  omap (fun ev => match ev with
                  | EvUpdateState Snap w => Some w
                  | _ => None
                  end) tr.

(** The ticks at which a trace stepped the stage, in order. *)
Definition stepped (tr : list Event) : list Z :=
  omap (fun ev => match ev with EvLogic t => Some t | _ => None end) tr.

End Effects.

(* ===================================================================== *)
(** ** Packets and their wire format *)

(** [static const int16_t NetworkMagic = 0xd97f;] *)
Definition NetworkMagic : Z := wrap16s 55679.

(** [enum Packet::Type] with the values C++ gives its enumerators. *)
Inductive PacketType := InputType | PingType | WorldType.

Definition PacketType_code (t : PacketType) : Z :=
  match t with InputType => 0 | PingType => 1 | WorldType => 2 end.

(** [class InputPacket]: the inputs and the tick they belong to. *)
Record InputPacket := mkInputPacket {
  packet_inputs : Input;
  packet_tick : Z;
}.

(** [Packet] and its three subclasses.  [PacketPing] holds the member
    [int16_t ping]. *)
Inductive Packet `{Simulation} :=
| PacketInput (input : InputPacket)
| PacketPing (ping : Z)
| PacketWorld (world : World).

(** What [readPacket] can raise. *)
Inductive MugenException :=
| Unknown_packet_type (type : Z).

Inductive Result (A : Type) :=
| Return (a : A)
| Throw (ex : MugenException).
Arguments Return {A} a.
Arguments Throw {A} ex.

Module Mugen.
Section Codec.
Context `{ser : Serialization}.

Definition getType (p : Packet) : PacketType :=
  match p with
  | PacketInput _ => InputType
  | PacketPing _ => PingType
  | PacketWorld _ => WorldType
  end.

(** [InputPacket (inputs, tick)] with its [uint32_t] tick. *)
Definition InputPacket_new (inputs : Input) (tick : Z) : Packet :=
  PacketInput (mkInputPacket inputs (wrap32 tick)).

(** [PingPacket (int ping)] stores its argument in an [int16_t]. *)
Definition PingPacket_new (ping : Z) : Packet := PacketPing (wrap16s ping).

(** [readPacket (const Network::Socket &)]: "TODO", no packet ever. *)
Definition readPacket_socket : option Packet := None.

(** [readPacket (NetworkBuffer &)].  The cases for [InputType] and
    [WorldType] hold a FIXME and break out of the switch; an unknown type
    throws. *)
Definition readPacket (buffer : NetworkBuffer)
    : Result (option Packet) * NetworkBuffer :=
  let '(magic, buffer) := Buffer.read16 buffer in
  if negb (magic =? NetworkMagic) then (Return None, buffer) else
  let '(type, buffer) := Buffer.read16 buffer in
  if type =? PacketType_code InputType then (Return None, buffer)
  else if type =? PacketType_code PingType then
    let '(clientPing, buffer) := Buffer.read16 buffer in
    (Return (Some (PingPacket_new (wrap16u clientPing))), buffer)
  else if type =? PacketType_code WorldType then (Return None, buffer)
  else (Throw (Unknown_packet_type type), buffer).

(** [sendPacket (socket, packet)]: the bytes written to the socket. *)
Definition sendPacket (packet : Packet) : list byte :=
  match packet with
  | PacketInput input =>
      let buffer := Buffer.new 128 in
      let buffer := Buffer.write16 NetworkMagic buffer in
      let buffer := Buffer.write16 (PacketType_code InputType) buffer in
      let buffer := Buffer.write32 (packet_tick input) buffer in
      let buffer := Buffer.writeString (inputToString (packet_inputs input)) buffer in
      Buffer.send buffer
  | PacketWorld world =>
      let compact := worldToString world in
      let out := LZ4_compress compact in
      let compressed := Z.of_nat (length out) in
      let buffer := Buffer.new 128 in
      let buffer := Buffer.write16 NetworkMagic buffer in
      let buffer := Buffer.write16 (PacketType_code WorldType) buffer in
      let buffer := Buffer.write16 (wrap16s compressed) buffer in
      let buffer := Buffer.write16 (wrap16s (Z.of_nat (length compact))) buffer in
      let buffer := Buffer.add out buffer in
      Buffer.send buffer
  | PacketPing ping =>
      let buffer := Buffer.new 128 in
      let buffer := Buffer.write16 NetworkMagic buffer in
      let buffer := Buffer.write16 (PacketType_code PingType) buffer in
      let buffer := Buffer.write16 ping buffer in
      Buffer.send buffer
  end.

(** A fresh buffer of [size] bytes filled from the socket, as
    [doClientInput] sets one up ([NetworkBuffer buffer (1024);
    buffer.readAll (unreliable);]). *)
Definition receive (size : Z) (incoming : list byte) : NetworkBuffer :=
  Buffer.readAll incoming (Buffer.new size).

(** Decoding what was encoded: the frame of [packet] arrives whole in a
    buffer of [size] bytes and [readPacket] reads it. *)
Definition decode_encode (size : Z) (packet : Packet) : Result (option Packet) :=
  fst (readPacket (receive size (sendPacket packet))).

End Codec.
End Mugen.
Import Mugen.

(** The buffer that received [frame ++ field ++ trailing] whole, with the
    cursor just before [field]. *)
Definition at_field (size : Z) (frame field trailing : list byte) : NetworkBuffer :=
  Buffer.advance (Z.of_nat (length frame))
                 (receive size (frame ++ field ++ trailing)).

(** The cursor stays inside the block, and the block has the size the buffer
    believes it has. *)
Definition buffer_ok (b : NetworkBuffer) : Prop :=
  0 <= buf_length b < buf_actualLength b
  /\ length (buf_buffer b) = Z.to_nat (buf_actualLength b).

(** What [readPacket] does once the magic was read, by the type it reads
    next. *)
Definition after_magic `{Simulation} (buffer : NetworkBuffer)
    : Result (option Packet) * NetworkBuffer :=
  let '(type, buffer) := Buffer.read16 buffer in
  if type =? 0 then (Return None, buffer)
  else if type =? 1 then
    let '(clientPing, buffer) := Buffer.read16 buffer in
    (Return (Some (PingPacket_new (wrap16u clientPing))), buffer)
  else if type =? 2 then (Return None, buffer)
  else (Throw (Unknown_packet_type type), buffer).

(* ===================================================================== *)
(** ** NetworkServerObserver *)

Module NetworkServerObserver.
Section Server.
Context `{ser : Serialization}.

(** The data members (the lock, the socket, the characters, the behaviours
    and the two thread objects carry no data of the protocol).  [pings]
    maps a logical ping to the time in milliseconds when it was sent. *)
Record t := mk {
  outBox : list Packet;
  inBox : list Packet;
  lastInput : Input;
  pings : gmap Z Z;
  alive_ : bool;
  count : Z;
  lastPing : Z;
  ping : Z;
  lastState : option World;
  inputs : gmap Z InputPacket;
}.

Definition set_outBox (v : list Packet) (s : t) : t :=
  mk v (inBox s) (lastInput s) (pings s) (alive_ s) (count s) (lastPing s)
     (ping s) (lastState s) (inputs s).
Definition set_lastInput (v : Input) (s : t) : t :=
  mk (outBox s) (inBox s) v (pings s) (alive_ s) (count s) (lastPing s)
     (ping s) (lastState s) (inputs s).
Definition set_pings (v : gmap Z Z) (s : t) : t :=
  mk (outBox s) (inBox s) (lastInput s) v (alive_ s) (count s) (lastPing s)
     (ping s) (lastState s) (inputs s).
Definition set_alive_ (v : bool) (s : t) : t :=
  mk (outBox s) (inBox s) (lastInput s) (pings s) v (count s) (lastPing s)
     (ping s) (lastState s) (inputs s).
Definition set_count (v : Z) (s : t) : t :=
  mk (outBox s) (inBox s) (lastInput s) (pings s) (alive_ s) v (lastPing s)
     (ping s) (lastState s) (inputs s).
Definition set_lastPing (v : Z) (s : t) : t :=
  mk (outBox s) (inBox s) (lastInput s) (pings s) (alive_ s) (count s) v
     (ping s) (lastState s) (inputs s).
Definition set_ping (v : Z) (s : t) : t :=
  mk (outBox s) (inBox s) (lastInput s) (pings s) (alive_ s) (count s)
     (lastPing s) v (lastState s) (inputs s).
Definition set_inputs (v : gmap Z InputPacket) (s : t) : t :=
  mk (outBox s) (inBox s) (lastInput s) (pings s) (alive_ s) (count s)
     (lastPing s) (ping s) (lastState s) v.

(** The constructor; [now] is what [System::currentMilliseconds ()]
    returns. *)
Definition new (now : Z) : t :=
  {| outBox := []; inBox := []; lastInput := Input_default; pings := ∅;
     alive_ := true; count := 0; lastPing := wrap64 now; ping := 0;
     lastState := None; inputs := ∅ |}.

Definition alive (s : t) : bool := alive_ s.
Definition kill (s : t) : t := set_alive_ false s.

(** [nextPing]: the ping to use, and the [uint16_t] counter moved on. *)
Definition nextPing (s : t) : Z * t :=
  (ping s, set_ping (wrap16u (ping s + 1)) s).

(** [sendPacket]: [outBox.push_back (packet)] *)
Definition sendPacket (packet : Packet) (s : t) : t :=
  set_outBox (outBox s ++ [packet]) s.

(** [getSendPacket]: the front of [outBox], removed from it. *)
Definition getSendPacket (s : t) : option Packet * t :=
  match outBox s with
  | [] => (None, s)
  | out :: rest => (Some out, set_outBox rest s)
  end.

(** One round of the loop of [doSend]: the bytes that go to the socket
    ([None]: nothing to send, the thread rests). *)
Definition doSend (s : t) : option (list byte) * t :=
  let '(nextPacket, s) := getSendPacket s in
  (Mugen.sendPacket <$> nextPacket, s).

Definition addInput (input : InputPacket) (s : t) : t :=
  set_inputs (<[packet_tick input := input]> (inputs s)) s.

(** [getInputs]: a copy of [inputs]; the member is cleared. *)
Definition getInputs (s : t) : gmap Z InputPacket * t :=
  (inputs s, set_inputs ∅ s).

(** [handlePacket]; [now] is what [System::currentMilliseconds ()] returns
    when the line for the ping is written. *)
Definition handlePacket (now : Z) (packet : Packet) (s : t) (e : Env)
    : t * Env :=
  match packet with
  | PacketPing client =>
      match pings s !! client with
      | Some sent =>
          (set_pings (delete client (pings s)) s,
           emit (EvDebug (Client_ping (wrap64 (now - sent)))) e)
      | None => (s, e)
      end
  | PacketInput input => (addInput input s, e)
  | PacketWorld _ =>
      (s, emit (EvDebug Should_not_have_gotten_a_world_packet) e)
  end.

(** One round of the loop of [doReceive]: [readPacket (reliable)] is the
    overload that returns no packet. *)
Definition doReceive (now : Z) (s : t) (e : Env) : t * Env :=
  match readPacket_socket with
  | Some nextPacket => handlePacket now nextPacket s e
  | None => (s, e)
  end.

(** [beforeLogic].  [now1] and [now2] are what the two calls of
    [System::currentMilliseconds ()] return.  The test on [inputs.size ()]
    reads the member, after [getInputs] has emptied it into [useInputs];
    the loop over [useInputs] has an empty body (its two calls are
    commented out). *)
Definition beforeLogic (now1 now2 : Z) (s : t) (e : Env) : t * Env :=
  let s :=
    if count s mod 30 =? 0
    then sendPacket (PacketWorld (snapshotState (stage e))) s else s in
  let s := set_count (wrap32 (count s + 1)) s in
  let currentTicks := wrap32 (getTicks (stage e)) in
  let '(useInputs, s) := getInputs s in
  let e :=
    if 0 <? Z.of_nat (size (inputs s))
    then rollbackAndReplay (lastState s) currentTicks e else e in
  if 1000 <? wrap64 (now1 - lastPing s) then
    let s := set_lastPing (wrap64 now2) s in
    let '(ping, s) := nextPing s in
    let s := set_pings (<[ping := lastPing s]> (pings s)) s in
    (sendPacket (PingPacket_new ping) s, e)
  else (s, e).

(** [afterLogic]; [latest] is what [player1Behavior.getInput ()] returns. *)
Definition afterLogic (latest : Input) (s : t) (e : Env) : t :=
  if decide (latest = lastInput s) then s
  else sendPacket (InputPacket_new latest (getTicks (stage e)))
                  (set_lastInput latest s).

(** What one pass of the match loop hands to the observer: the two clock
    readings for [beforeLogic] and the local input for [afterLogic]. *)
Record Tick := mkTick {
  tick_now1 : Z;
  tick_now2 : Z;
  tick_latest : Input;
}.

(** One pass: [beforeLogic], the step of the stage, [afterLogic]. *)
Definition step (i : Tick) (se : t * Env) : t * Env :=
  let '(s, e) := beforeLogic (tick_now1 i) (tick_now2 i) se.1 se.2 in
  let e := call_logic e in
  (afterLogic (tick_latest i) s e, e).

Definition run (ticks : list Tick) (se : t * Env) : t * Env :=
  foldl (fun se i => step i se) se ticks.

(** The packets of a queue by kind. *)
Definition isWorld (p : Packet) : bool :=
  match p with PacketWorld _ => true | _ => false end.
Definition isInput (p : Packet) : bool :=
  match p with PacketInput _ => true | _ => false end.

End Server.
End NetworkServerObserver.

(* ===================================================================== *)
(** ** NetworkClientObserver *)

(** How a call on raw memory can go wrong. *)
Inductive Fault :=
| Bad_alloc (size : Z)
| Out_of_bounds_write (index : Z) (size : Z).

(** The result of one round of a receiving loop: finished, waiting for bytes
    the socket does not hold yet, or stopped by a fault. *)
Inductive Outcome (A : Type) :=
| Done (a : A)
| Blocked
| Crashed (f : Fault).
Arguments Done {A} a.
Arguments Blocked {A}.
Arguments Crashed {A} f.

#[global] Instance Outcome_bind : MBind Outcome := fun A B k m =>
  match m with
  | Done a => k a
  | Blocked => Blocked
  | Crashed f => Crashed f
  end.

(** Modelled from the spec: [Network::read16] and [Network::readBytes] are
    not part of the sources.  They take a 16-bit integer in network byte
    order, or a number of bytes, from the stream of the socket and block while
    it holds fewer. *)
Definition socket_read16 (incoming : list byte) : Outcome (Z * list byte) :=
  match incoming with
  | hi :: lo :: rest => Done (wrap16s (parse16 [hi; lo]), rest)
  | _ => Blocked
  end.

Definition socket_readBytes (n : Z) (incoming : list byte)
    : Outcome (list byte * list byte) :=
  if Z.of_nat (length incoming) <? n then Blocked
  else Done (take (Z.to_nat n) incoming, drop (Z.to_nat n) incoming).

(** [new uint8_t[size]]; the bytes C++ leaves uninitialised are zero. *)
Definition new_array (size : Z) : Outcome (list byte) :=
  if size <? 0 then Crashed (Bad_alloc size)
  else Done (replicate (Z.to_nat size) x00).

(** [block[index] = value] *)
Definition array_store (index : Z) (value : byte) (block : list byte)
    : Outcome (list byte) :=
  if (0 <=? index) && (index <? Z.of_nat (length block))
  then Done (<[Z.to_nat index := value]> block)
  else Crashed (Out_of_bounds_write index (Z.of_nat (length block))).

Module NetworkClientObserver.
Section Client.
Context `{ser : Serialization}.

(** The data members of the protocol: the snapshot slot [world], the
    liveness flag, the pending inputs and the baseline [lastState]. *)
Record t := mk {
  world : option World;
  alive_ : bool;
  inputs : gmap Z InputPacket;
  lastState : option World;
}.

Definition new : t :=
  {| world := None; alive_ := true; inputs := ∅; lastState := None |}.

Definition setWorld (w : World) (s : t) : t :=
  mk (Some w) (alive_ s) (inputs s) (lastState s).

(** [getWorld]: [out = world; world = NULL; return out;] *)
Definition getWorld (s : t) : option World * t :=
  (world s, mk None (alive_ s) (inputs s) (lastState s)).

Definition alive (s : t) : bool := alive_ s.
Definition kill (s : t) : t :=
  mk (world s) false (inputs s) (lastState s).

(** [sendPing]: the bytes written to the socket. *)
Definition sendPing (ping : Z) : list byte :=
  let buffer := Buffer.new 128 in
  let buffer := Buffer.write16 NetworkMagic buffer in
  let buffer := Buffer.write16 (PacketType_code PingType) buffer in
  let buffer := Buffer.write16 ping buffer in
  Buffer.send buffer.

Definition addInput (input : InputPacket) (s : t) : t :=
  mk (world s) (alive_ s) (<[packet_tick input := input]> (inputs s))
     (lastState s).

(** What one round of [doReceive] leaves: the rest of the stream, the bytes
    sent back, the observer and the environment. *)
Record Received := mkReceived {
  rest : list byte;
  sent : list byte;
  state : t;
  env : Env;
}.

(** The three lines of [doReceive] that set up the block [what] and fill
    it:
<<
    uint8_t * what = new uint8_t[uncompressed + 1];
    what[uncompressed] = 0;
    LZ4_uncompress (data, what, uncompressed);
>>
    The result is the block afterwards. *)
Definition decompress (data : list byte) (uncompressed : Z)
    : Outcome (list byte) :=
  what ← new_array (uncompressed + 1) ;
  what ← array_store uncompressed x00 what ;
  Done (LZ4_uncompress data what uncompressed).

(** The case [Packet::WorldType] of [doReceive]. *)
Definition receiveWorld (incoming : list byte) (s : t) (e : Env)
    : Outcome Received :=
  '(compressed, incoming) ← socket_read16 incoming ;
  '(uncompressed, incoming) ← socket_read16 incoming ;
  data ← new_array compressed ;
  '(bytes, incoming) ← socket_readBytes compressed incoming ;
  let data := poke 0 bytes data in
  what ← decompress data uncompressed ;
  let use := c_string what in
  match worldFromString use with
  | Some w => Done (mkReceived incoming [] (setWorld w s) e)
  | None => Done (mkReceived incoming [] s e)
  end.

(** One round of the loop of [doReceive].  The switch has a case for
    [WorldType] and one for [PingType] and no default. *)
Definition doReceive (incoming : list byte) (s : t) (e : Env)
    : Outcome Received :=
  '(magic, incoming) ← socket_read16 incoming ;
  if negb (magic =? NetworkMagic)
  then Done (mkReceived incoming [] s
               (emit (EvDebug (Garbage_message_packet magic)) e))
  else
    '(type, incoming) ← socket_read16 incoming ;
    if type =? PacketType_code WorldType then receiveWorld incoming s e
    else if type =? PacketType_code PingType then
      '(ping, incoming) ← socket_read16 incoming ;
      Done (mkReceived incoming (sendPing ping) s e)
    else Done (mkReceived incoming [] s e).

(** One round of the loop of [doClientInput] on a datagram: [true] when
    the loop goes on, [false] when an exception ended it (the handler
    around the loop writes a line and the thread returns).  The magic is
    read here and once more by [readPacket]. *)
Definition doClientInput (datagram : list byte) (s : t) (e : Env)
    : bool * t * Env :=
  let buffer := receive 1024 datagram in
  let '(magic, buffer) := Buffer.read16 buffer in
  if negb (magic =? NetworkMagic)
  then (true, s, emit (EvDebug (Garbage_udp_packet magic)) e)
  else
    match readPacket buffer with
    | (Return (Some (PacketInput input)), _) => (true, addInput input s, e)
    | (Return _, _) => (true, s, e)
    | (Throw _, _) =>
        (false, s, emit (EvDebug Error_in_client_read_input_thread) e)
    end.

(** [beforeLogic].  The loop over [inputs] has an empty body (its two
    calls are commented out). *)
Definition beforeLogic (s : t) (e : Env) : t * Env :=
  let currentTicks := wrap32 (getTicks (stage e)) in
  let '(next, s) := getWorld s in
  let '(s, e) :=
    match next with
    | Some w =>
        (mk (world s) (alive_ s) (inputs s) (Some w),
         call_updateState Snap w e)
    | None => (s, e)
    end in
  if 0 <? Z.of_nat (size (inputs s)) then
    let s := mk (world s) (alive_ s) ∅ (lastState s) in
    (s, rollbackAndReplay (lastState s) currentTicks e)
  else (s, e).

(** [afterLogic]: everything it would send is commented out. *)
Definition afterLogic (s : t) (e : Env) : t := s.

(** The calls that reach the observer, in the order the lock grants
    them: the receiving thread stores a snapshot or an input, the match
    loop runs [beforeLogic], the step of the stage and [afterLogic]. *)
Inductive Call :=
| CallSetWorld (w : World)
| CallAddInput (input : InputPacket)
| CallTick.

Definition call (c : Call) (se : t * Env) : t * Env :=
  match c with
  | CallSetWorld w => (setWorld w se.1, se.2)
  | CallAddInput input => (addInput input se.1, se.2)
  | CallTick =>
      let '(s, e) := beforeLogic se.1 se.2 in
      let e := call_logic e in
      (afterLogic s e, e)
  end.

Definition run (calls : list Call) (se : t * Env) : t * Env :=
  foldl (fun se c => call c se) se calls.

(** The snapshots handed to [setWorld] by a list of calls, in order. *)
Definition received (calls : list Call) : list World :=
  omap (fun c => match c with CallSetWorld w => Some w | _ => None end) calls.

End Client.
End NetworkClientObserver.

(* ===================================================================== *)
(** ** A small simulation to run the model on *)

(** A stage that is nothing but its tick counter; a snapshot is the tick it
    was taken at. *)
Definition counter_sim : Simulation :=
  {| World := Z; Stage := Z;
     getTicks := fun st => st;
     logic := fun st => if st =? 4294967295 then 0 else st + 1;
     updateState := fun w _ => w;
     snapshotState := fun st => st;
     ticker := fun w => w |}.

(** Text without structure (a world is one character, never the zero that
    ends a C string) and a compressor that stores its input as it is; the
    decoder copies at most [osize] bytes and never more than the block
    holds. *)
Definition bool_char (v : bool) : byte := if v then "1"%byte else "0"%byte.

Definition stored_ser : Serialization counter_sim :=
  {| inputToString := fun i =>
       [bool_char (input_a i); bool_char (input_b i); bool_char (input_c i);
        bool_char (input_x i); bool_char (input_y i); bool_char (input_z i);
        bool_char (input_back i); bool_char (input_forward i);
        bool_char (input_up i); bool_char (input_down i)];
     worldToString := fun w : @World counter_sim => [byte_of_Z (1 + w mod 255)];
     LZ4_compress := fun text => text;
     LZ4_uncompress := fun src dest osize =>
       poke 0 (take (Z.to_nat osize `min` length dest) src) dest;
     worldFromString := fun text =>
       match text with
       | [c] => Some (Z_of_byte c - 1 : @World counter_sim)
       | _ => None
       end |}.

Definition env0 (tick : Z) : @Env counter_sim :=
  {| stage := (tick : @Stage counter_sim); trace := [] |}.

(** The client holding the baseline of tick 3 and one pending input. *)
Definition client_3 : @NetworkClientObserver.t counter_sim :=
  NetworkClientObserver.mk None true
    {[ 5 := mkInputPacket Input_default 5 ]} (Some (3 : @World counter_sim)).

(** Inputs and passes for the runs below: nothing pressed, [a] pressed, and
    passes in which the clock stands still (so no Ping is due). *)
Definition pressed_a : Input :=
  mkInput true false false false false false false false false false.

Definition pass (latest : Input) : NetworkServerObserver.Tick :=
  NetworkServerObserver.mkTick 0 0 latest.

Definition server_0 : @NetworkServerObserver.t counter_sim :=
  NetworkServerObserver.new 0.

(** The server that sent the ping 7 at the time 1000. *)
Definition server_7 : @NetworkServerObserver.t counter_sim :=
  NetworkServerObserver.set_pings {[ 7 := 1000 ]} server_0.

(* ===================================================================== *)
(** ** Sequences of calls *)

(** The writers of a [NetworkBuffer] as data: [operator<<] for [int16_t],
    [uint32_t] and [string], and [add]. *)
Inductive Write :=
| Put16 (v : Z)
| Put32 (v : Z)
| PutString (str : list byte)
| PutBytes (data : list byte).

Definition put (w : Write) (b : NetworkBuffer) : NetworkBuffer :=
  match w with
  | Put16 v => Buffer.write16 v b
  | Put32 v => Buffer.write32 v b
  | PutString str => Buffer.writeString str b
  | PutBytes data => Buffer.add data b
  end.

Definition put_all (ws : list Write) (b : NetworkBuffer) : NetworkBuffer :=
  foldl (fun b w => put w b) b ws.

(** The bytes a writer stands for on the wire. *)
Definition wire (w : Write) : list byte :=
  match w with
  | Put16 v => dump16 v
  | Put32 v => dump32 v
  | PutString str => dump16 (wrap16s (Z.of_nat (length str))) ++ str
  | PutBytes data => data
  end.

(** [class NetworkBehavior]: the behaviour of the remote player. *)
Module NetworkBehavior.

Record t := mk {
  lastTick : Z;
  lastInput : Input;
  history : gmap Z Input;
}.

(** [NetworkBehavior (): lastTick (0)] *)
Definition new : t :=
  {| lastTick := 0; lastInput := Input_default; history := ∅ |}.

(** [setInput (uint32_t tick, const Input & input)] *)
Definition setInput (tick : Z) (input : Input) (b : t) : t :=
  if lastTick b <? wrap32 tick
  then mk (wrap32 tick) input (history b)
  else b.

(** [currentCommands]: an empty vector, whatever the stage and the commands
    are. *)
Definition currentCommands (b : t) : list (list byte) := [].

(** [flip]: nothing. *)
Definition flip (b : t) : t := b.

Definition setInputs (calls : list (Z * Input)) (b : t) : t :=
  foldl (fun b c => setInput c.1 c.2 b) b calls.

End NetworkBehavior.

(** The loop of [Game::startNetworkVersus1] that connects the client:
<<
    int maxTries = 5;
    for (tries = 0; tries < maxTries; tries++){
        try{
            socket = Network::connectReliable(host, port);
            break;
        } catch (const Network::NetworkException & fail){
            PaintownUtil::rest(1000);
        }
    }
    if (tries == maxTries){
        throw MugenException("Could not connect", __FILE__, __LINE__);
    }
>>
    [attempt k] is what the call of [connectReliable] in the round [tries = k]
    does: [Some socket], or [None] for a [NetworkException].  The result
    names the socket or the exception, with the number of calls made and the
    milliseconds rested. *)
Inductive Connection :=
| Connected (socket : Z) (calls : nat) (rested : Z)
| Could_not_connect (calls : nat) (rested : Z).

Definition maxTries : nat := 5.

(** The rounds from [tries] on; [rounds] is [maxTries - tries]. *)
Fixpoint connect_from (rounds tries : nat) (attempt : nat -> option Z)
    (rested : Z) : Connection :=
  match rounds with
  | O => Could_not_connect tries rested
  | S rounds =>
      match attempt tries with
      | Some socket => Connected socket (S tries) rested
      | None => connect_from rounds (S tries) attempt (rested + 1000)
      end
  end.

Definition connect (attempt : nat -> option Z) : Connection :=
  connect_from maxTries 0 attempt 0.

(** What the decoder owes the encoder: the text comes back, in the first
    bytes of a block that is large enough. *)
Class Lossless {sim : Simulation} (ser : Serialization sim) : Prop := {
  LZ4_round_trip : forall text dest,
    (length text <= length dest)%nat ->
    take (length text)
         (LZ4_uncompress (LZ4_compress text) dest (Z.of_nat (length text)))
    = text;
}.

(** A serialisation for long texts: the world [w] is the letter [a] written
    [w] times; nothing is compressed to anything. *)
Definition long_ser : Serialization counter_sim :=
  {| inputToString := fun _ => [];
     worldToString := fun w : @World counter_sim => replicate (Z.to_nat w) "a"%byte;
     LZ4_compress := fun _ => [];
     LZ4_uncompress := fun _ dest _ => dest;
     worldFromString := fun _ => None |}.

Section Calls.
Context `{ser : Serialization}.

(** The calls that reach the server's observer, in the order the lock grants
    them: a pass of the match loop, a packet handed to [handlePacket], the
    sending thread taking the front of [outBox], [kill]. *)
Inductive ServerCall :=
| ServerPass (i : NetworkServerObserver.Tick)
| ServerHandle (now : Z) (packet : Packet)
| ServerTake
| ServerKill.

Definition server_call (c : ServerCall)
    (se : NetworkServerObserver.t * Env) : NetworkServerObserver.t * Env :=
  match c with
  | ServerPass i => NetworkServerObserver.step i se
  | ServerHandle now packet => NetworkServerObserver.handlePacket now packet se.1 se.2
  | ServerTake => ((NetworkServerObserver.getSendPacket se.1).2, se.2)
  | ServerKill => (NetworkServerObserver.kill se.1, se.2)
  end.

Definition server_run (calls : list ServerCall)
    (se : NetworkServerObserver.t * Env) : NetworkServerObserver.t * Env :=
  foldl (fun se c => server_call c se) se calls.

(** The keys of [pings] and the counter [ping] are [uint16_t] values. *)
Definition ping_table_ok (s : NetworkServerObserver.t) : Prop :=
  (forall id, is_Some (NetworkServerObserver.pings s !! id) -> 0 <= id < 65536)
  /\ 0 <= NetworkServerObserver.ping s < 65536.

(** The packets [sendPacket] queues one after the other. *)
Definition queue_all (packets : list Packet) (s : NetworkServerObserver.t)
    : NetworkServerObserver.t :=
  foldl (fun s p => NetworkServerObserver.sendPacket p s) s packets.

(** The inputs [addInput] stores one after the other, on the server and on
    the client. *)
Definition server_addInputs (ps : list InputPacket) (s : NetworkServerObserver.t)
    : NetworkServerObserver.t :=
  foldl (fun s p => NetworkServerObserver.addInput p s) s ps.

Definition client_addInputs (ps : list InputPacket) (s : NetworkClientObserver.t)
    : NetworkClientObserver.t :=
  foldl (fun s p => NetworkClientObserver.addInput p s) s ps.

(** [n] rounds of the loop of [doSend]: what went to the socket, frame by
    frame. *)
Fixpoint drain (n : nat) (s : NetworkServerObserver.t)
    : list (list byte) * NetworkServerObserver.t :=
  match n with
  | O => ([], s)
  | S n =>
      match NetworkServerObserver.doSend s with
      | (Some frame, s) => let '(frames, s) := drain n s in (frame :: frames, s)
      | (None, s) => drain n s
      end
  end.

(** What the threads of the client do with the observer: a round of
    [doReceive] on the bytes the reliable socket holds (a round that blocks or
    faults changes nothing), a round of [doClientInput] on a datagram, a
    pass of the match loop. *)
Inductive ClientStep :=
| ClientReceive (incoming : list byte)
| ClientInput (datagram : list byte)
| ClientPass.

Definition client_step (c : ClientStep)
    (se : NetworkClientObserver.t * Env) : NetworkClientObserver.t * Env :=
  match c with
  | ClientReceive incoming =>
      match NetworkClientObserver.doReceive incoming se.1 se.2 with
      | Done r => (NetworkClientObserver.state r, NetworkClientObserver.env r)
      | _ => se
      end
  | ClientInput datagram =>
      let '(_, s, e) := NetworkClientObserver.doClientInput datagram se.1 se.2 in
      (s, e)
  | ClientPass => NetworkClientObserver.call NetworkClientObserver.CallTick se
  end.

Definition client_steps (cs : list ClientStep)
    (se : NetworkClientObserver.t * Env) : NetworkClientObserver.t * Env :=
  foldl (fun se c => client_step c se) se cs.

Definition is_pass (c : ClientStep) : bool :=
  match c with ClientPass => true | _ => false end.

(** The events of a pass of the client that never replays: a snapshot
    applied, a step of the stage, a line of the log. *)
Definition plain_event (ev : Event) : bool :=
  match ev with
  | EvUpdateState Snap _ | EvLogic _ | EvDebug _ => true
  | _ => false
  end.

(** The trace grew by plain events only, [passes] of them steps of the
    stage. *)
Definition grows_plainly (e e' : Env) (passes : nat) : Prop :=
  exists tr,
    trace e' = trace e ++ tr
    /\ Forall (fun ev => plain_event ev = true) tr
    /\ length (stepped tr) = passes.

End Calls.

(* ===================================================================== *)
(** * Properties *)

(** ** Integers and bytes *)

Lemma Z_of_byte_range (b : byte) : 0 <= Z_of_byte b < 256.
Proof.
  unfold Z_of_byte. pose proof (Byte.to_N_bounded b). lia.
Qed.

Lemma Z_of_byte_of_Z (v : Z) : Z_of_byte (byte_of_Z v) = v mod 256.
Proof.
  unfold Z_of_byte, byte_of_Z.
  assert (Hr : 0 <= v mod 256 < 256) by (apply Z.mod_pos_bound; lia).
  destruct (Byte.of_N (Z.to_N (v mod 256))) as [b|] eqn:Hb.
  - apply Byte.to_of_N in Hb. simpl. rewrite Hb. lia.
  - apply Byte.of_N_None_iff in Hb. lia.
Qed.

Lemma wrap16s_range (v : Z) : -32768 <= wrap16s v < 32768.
Proof. unfold wrap16s. pose proof (Z.mod_pos_bound (v + 32768) 65536). lia. Qed.

Lemma wrap16s_small (v : Z) : -32768 <= v < 32768 -> wrap16s v = v.
Proof. intros. unfold wrap16s. rewrite Z.mod_small; lia. Qed.

Lemma wrap16s_wrap16u (v : Z) : wrap16s (wrap16u v) = wrap16s v.
Proof.
  unfold wrap16s, wrap16u. f_equal.
  rewrite <- (Zplus_mod_idemp_l v). reflexivity.
Qed.

Lemma wrap32_small (v : Z) : 0 <= v < 4294967296 -> wrap32 v = v.
Proof. intros. unfold wrap32. apply Z.mod_small. lia. Qed.

Lemma wrap32_wrap32 (v : Z) : wrap32 (wrap32 v) = wrap32 v.
Proof. unfold wrap32. apply Z.mod_mod. lia. Qed.

Lemma wrap64_small (v : Z) : 0 <= v < 18446744073709551616 -> wrap64 v = v.
Proof. intros. unfold wrap64. apply Z.mod_small. lia. Qed.

Lemma parse16_dump16 (v : Z) (rest : list byte) :
  parse16 (dump16 v ++ rest) = wrap16u v.
Proof.
  unfold dump16, parse16, wrap16u. simpl. rewrite !Z_of_byte_of_Z.
  Z.div_mod_to_equations. lia.
Qed.

Lemma parse32_dump32 (v : Z) (rest : list byte) :
  parse32 (dump32 v ++ rest) = wrap32 v.
Proof.
  unfold dump32, parse32, wrap32. simpl. rewrite !Z_of_byte_of_Z.
  Z.div_mod_to_equations. lia.
Qed.

(** ** NetworkBuffer *)

Lemma poke_0_zeros (data : list byte) (n : nat) :
  poke 0 data (replicate n x00) = data ++ replicate (n - length data) x00.
Proof.
  unfold poke. change (Z.to_nat 0) with 0%nat.
  rewrite take_0, drop_replicate. reflexivity.
Qed.

Lemma receive_whole (size : Z) (incoming : list byte) :
  Z.of_nat (length incoming) <= size ->
  receive size incoming
  = {| buf_length := 0;
       buf_buffer := incoming ++ replicate (Z.to_nat size - length incoming) x00;
       buf_actualLength := size;
       buf_contains := Z.of_nat (length incoming) |}.
Proof.
  intros Hfit. unfold receive, Buffer.readAll, Buffer.new. simpl.
  rewrite take_ge by lia. rewrite poke_0_zeros. reflexivity.
Qed.

Lemma read16_short (b : NetworkBuffer) :
  Buffer.remaining b <= 2 -> Buffer.read16 b = (-1, b).
Proof.
  unfold Buffer.remaining, Buffer.read16. intros Hrem.
  destruct (Z.ltb_spec (buf_length b + 2) (buf_contains b)); [lia | reflexivity].
Qed.

Lemma read16_spare (b : NetworkBuffer) :
  2 < Buffer.remaining b ->
  Buffer.read16 b
  = (wrap16s (parse16 (drop (Z.to_nat (buf_length b)) (buf_buffer b))),
     Buffer.advance 2 b).
Proof.
  unfold Buffer.remaining, Buffer.read16. intros Hrem.
  destruct (Z.ltb_spec (buf_length b + 2) (buf_contains b)); [reflexivity | lia].
Qed.

Lemma read32_short (b : NetworkBuffer) :
  Buffer.remaining b <= 4 -> Buffer.read32 b = (4294967295, b).
Proof.
  unfold Buffer.remaining, Buffer.read32. intros Hrem.
  destruct (Z.ltb_spec (buf_length b + 4) (buf_contains b)); [lia | reflexivity].
Qed.

Lemma read32_spare (b : NetworkBuffer) :
  4 < Buffer.remaining b ->
  Buffer.read32 b
  = (wrap32 (parse32 (drop (Z.to_nat (buf_length b)) (buf_buffer b))),
     Buffer.advance 4 b).
Proof.
  unfold Buffer.remaining, Buffer.read32. intros Hrem.
  destruct (Z.ltb_spec (buf_length b + 4) (buf_contains b)); [reflexivity | lia].
Qed.

Lemma at_field_spec (size : Z) (frame field trailing : list byte) :
  Z.of_nat (length (frame ++ field ++ trailing)) <= size ->
  Buffer.remaining (at_field size frame field trailing)
  = Z.of_nat (length field + length trailing)
  /\ drop (Z.to_nat (buf_length (at_field size frame field trailing)))
          (buf_buffer (at_field size frame field trailing))
     = field ++ trailing
        ++ replicate (Z.to_nat size - length (frame ++ field ++ trailing)) x00.
Proof.
  intros Hfit. unfold at_field. rewrite receive_whole by exact Hfit.
  unfold Buffer.remaining, Buffer.advance. simpl. split.
  - rewrite !length_app. lia.
  - rewrite Z.add_0_l, Nat2Z.id, <- !app_assoc.
    apply drop_app_length.
Qed.

(** C9.  A 16-bit or 32-bit read returns the stored value and moves the
    cursor only when strictly more bytes than the size of the value are left
    unread; otherwise (so also when exactly that many are left) it returns
    [-1] (as a [uint32_t]: 4294967295) and leaves the cursor.  Hence the last
    field of a frame that arrived with nothing behind it reads as [-1],
    whatever was sent, and with one more byte behind it reads as sent. *)
Theorem read_needs_a_byte_to_spare
    (b : NetworkBuffer) (size : Z) (frame : list byte) (v : Z) (extra : byte) :
  (Buffer.remaining b <= 2 -> Buffer.read16 b = (-1, b))
  /\ (2 < Buffer.remaining b ->
      Buffer.read16 b
      = (wrap16s (parse16 (drop (Z.to_nat (buf_length b)) (buf_buffer b))),
         Buffer.advance 2 b))
  /\ (Buffer.remaining b <= 4 -> Buffer.read32 b = (4294967295, b))
  /\ (4 < Buffer.remaining b ->
      Buffer.read32 b
      = (wrap32 (parse32 (drop (Z.to_nat (buf_length b)) (buf_buffer b))),
         Buffer.advance 4 b))
  /\ (Z.of_nat (length frame) + 5 <= size ->
      Buffer.read16 (at_field size frame (dump16 v) [])
      = (-1, at_field size frame (dump16 v) [])
      /\ Buffer.read16 (at_field size frame (dump16 v) [extra])
         = (wrap16s v, Buffer.advance 2 (at_field size frame (dump16 v) [extra]))
      /\ Buffer.read32 (at_field size frame (dump32 v) [])
         = (4294967295, at_field size frame (dump32 v) [])
      /\ Buffer.read32 (at_field size frame (dump32 v) [extra])
         = (wrap32 v, Buffer.advance 4 (at_field size frame (dump32 v) [extra]))).
Proof.
  split; [apply read16_short|]. split; [apply read16_spare|].
  split; [apply read32_short|]. split; [apply read32_spare|].
  intros Hsize.
  assert (Hfit : forall field trailing,
             (length field + length trailing <= 5)%nat ->
             Z.of_nat (length (frame ++ field ++ trailing)) <= size)
    by (intros; rewrite !length_app; lia).
  repeat split.
  - apply read16_short.
    destruct (at_field_spec size frame (dump16 v) []) as [-> _];
      [apply Hfit|]; simpl; lia.
  - destruct (at_field_spec size frame (dump16 v) [extra]) as [Hrem Hdrop];
      [apply Hfit; simpl; lia|].
    rewrite read16_spare by (rewrite Hrem; simpl; lia).
    rewrite Hdrop, parse16_dump16, wrap16s_wrap16u. reflexivity.
  - apply read32_short.
    destruct (at_field_spec size frame (dump32 v) []) as [-> _];
      [apply Hfit|]; simpl; lia.
  - destruct (at_field_spec size frame (dump32 v) [extra]) as [Hrem Hdrop];
      [apply Hfit; simpl; lia|].
    rewrite read32_spare by (rewrite Hrem; simpl; lia).
    rewrite Hdrop, parse32_dump32, wrap32_wrap32. reflexivity.
Qed.

(** *** Writing *)

Lemma new_ok (size : Z) : 0 < size -> buffer_ok (Buffer.new size).
Proof.
  intros Hsize. unfold buffer_ok, Buffer.new. simpl.
  rewrite length_replicate. lia.
Qed.

Lemma send_new (size : Z) : Buffer.send (Buffer.new size) = [].
Proof. reflexivity. Qed.

Lemma checkBuffer_ok (n : Z) (b : NetworkBuffer) :
  0 <= n -> buffer_ok b ->
  buffer_ok (Buffer.checkBuffer n b)
  /\ buf_length (Buffer.checkBuffer n b) = buf_length b
  /\ buf_length b + n < buf_actualLength (Buffer.checkBuffer n b)
  /\ Buffer.send (Buffer.checkBuffer n b) = Buffer.send b.
Proof.
  intros Hn [Hcur Hlen]. unfold Buffer.checkBuffer.
  destruct (Z.leb_spec (buf_actualLength b) (buf_length b + n)) as [Hfull|Hroom].
  - unfold buffer_ok, Buffer.increaseBuffer, Buffer.send, Buffer.getLength. simpl.
    rewrite poke_0_zeros.
    assert (Htake : length (take (Z.to_nat (buf_length b)) (buf_buffer b))
                    = Z.to_nat (buf_length b))
      by (rewrite length_take; lia).
    repeat split; try lia.
    + rewrite length_app, length_replicate, Htake. lia.
    + rewrite take_app_length'; [|symmetry; exact Htake].
      reflexivity.
  - repeat split; try assumption; lia.
Qed.

Lemma store_ok (data : list byte) (b : NetworkBuffer) :
  buffer_ok b ->
  buf_length b + Z.of_nat (length data) < buf_actualLength b ->
  buffer_ok (Buffer.store data b)
  /\ Buffer.send (Buffer.store data b) = Buffer.send b ++ data.
Proof.
  intros [Hcur Hlen] Hroom.
  unfold buffer_ok, Buffer.store, Buffer.send, Buffer.getLength, poke. simpl.
  assert (Htake : length (take (Z.to_nat (buf_length b)) (buf_buffer b))
                  = Z.to_nat (buf_length b))
    by (rewrite length_take; lia).
  repeat split; try lia.
  - rewrite !length_app, length_drop, Htake. lia.
  - rewrite app_assoc. apply take_app_length'.
    rewrite length_app, Htake. lia.
Qed.

(** Every writer appends its bytes to what [send] will deliver. *)
Lemma add_ok (data : list byte) (b : NetworkBuffer) :
  buffer_ok b ->
  buffer_ok (Buffer.add data b)
  /\ Buffer.send (Buffer.add data b) = Buffer.send b ++ data.
Proof.
  intros Hok. unfold Buffer.add.
  destruct (checkBuffer_ok (Z.of_nat (length data)) b) as (Hok' & Hcur & Hroom & Hsend);
    [lia | exact Hok |].
  destruct (store_ok data (Buffer.checkBuffer (Z.of_nat (length data)) b))
    as [Hok'' Hsend'']; [exact Hok' | lia |].
  split; [exact Hok''|]. rewrite Hsend'', Hsend. reflexivity.
Qed.

Lemma write16_ok (v : Z) (b : NetworkBuffer) :
  buffer_ok b ->
  buffer_ok (Buffer.write16 v b)
  /\ Buffer.send (Buffer.write16 v b) = Buffer.send b ++ dump16 v.
Proof. apply (add_ok (dump16 v)). Qed.

Lemma write32_ok (v : Z) (b : NetworkBuffer) :
  buffer_ok b ->
  buffer_ok (Buffer.write32 v b)
  /\ Buffer.send (Buffer.write32 v b) = Buffer.send b ++ dump32 v.
Proof. apply (add_ok (dump32 v)). Qed.

Lemma writeString_ok (str : list byte) (b : NetworkBuffer) :
  buffer_ok b ->
  buffer_ok (Buffer.writeString str b)
  /\ Buffer.send (Buffer.writeString str b)
     = Buffer.send b ++ dump16 (wrap16s (Z.of_nat (length str))) ++ str.
Proof.
  intros Hok. unfold Buffer.writeString.
  destruct (write16_ok (wrap16s (Z.of_nat (length str))) b Hok) as [Hok' Hsend].
  destruct (add_ok str _ Hok') as [Hok'' Hsend''].
  split; [exact Hok''|]. rewrite Hsend'', Hsend, <- app_assoc. reflexivity.
Qed.

(** ** The wire format *)

Section CodecFacts.
Context `{ser : Serialization}.

(** The frames [sendPacket] writes: magic, type, then the payload. *)
Lemma sendPacket_Input (input : InputPacket) :
  sendPacket (PacketInput input)
  = dump16 NetworkMagic ++ dump16 0 ++ dump32 (packet_tick input)
    ++ dump16 (wrap16s (Z.of_nat (length (inputToString (packet_inputs input)))))
    ++ inputToString (packet_inputs input).
Proof.
  unfold sendPacket.
  pose proof (new_ok 128 ltac:(lia)) as H0.
  destruct (write16_ok NetworkMagic _ H0) as [H1 E1].
  destruct (write16_ok (PacketType_code InputType) _ H1) as [H2 E2].
  destruct (write32_ok (packet_tick input) _ H2) as [H3 E3].
  destruct (writeString_ok (inputToString (packet_inputs input)) _ H3) as [_ E4].
  rewrite E4, E3, E2, E1, send_new. simpl. reflexivity.
Qed.

Lemma sendPacket_World (w : World) :
  sendPacket (PacketWorld w)
  = dump16 NetworkMagic ++ dump16 2
    ++ dump16 (wrap16s (Z.of_nat (length (LZ4_compress (worldToString w)))))
    ++ dump16 (wrap16s (Z.of_nat (length (worldToString w))))
    ++ LZ4_compress (worldToString w).
Proof.
  unfold sendPacket.
  pose proof (new_ok 128 ltac:(lia)) as H0.
  destruct (write16_ok NetworkMagic _ H0) as [H1 E1].
  destruct (write16_ok (PacketType_code WorldType) _ H1) as [H2 E2].
  destruct (write16_ok (wrap16s (Z.of_nat (length (LZ4_compress (worldToString w))))) _ H2)
    as [H3 E3].
  destruct (write16_ok (wrap16s (Z.of_nat (length (worldToString w)))) _ H3)
    as [H4 E4].
  destruct (add_ok (LZ4_compress (worldToString w)) _ H4) as [_ E5].
  rewrite E5, E4, E3, E2, E1, send_new. simpl. reflexivity.
Qed.

Lemma sendPacket_Ping (ping : Z) :
  sendPacket (PacketPing ping)
  = dump16 NetworkMagic ++ dump16 1 ++ dump16 ping.
Proof.
  unfold sendPacket.
  pose proof (new_ok 128 ltac:(lia)) as H0.
  destruct (write16_ok NetworkMagic _ H0) as [H1 E1].
  destruct (write16_ok (PacketType_code PingType) _ H1) as [H2 E2].
  destruct (write16_ok ping _ H2) as [_ E3].
  rewrite E3, E2, E1, send_new. simpl. reflexivity.
Qed.

End CodecFacts.

Lemma readPacket_magic `{Simulation} (b : NetworkBuffer) :
  2 < Buffer.remaining b ->
  wrap16s (parse16 (drop (Z.to_nat (buf_length b)) (buf_buffer b))) = NetworkMagic ->
  readPacket b = after_magic (Buffer.advance 2 b).
Proof.
  intros Hrem Hmagic. unfold readPacket, after_magic.
  rewrite (read16_spare b Hrem), Hmagic, Z.eqb_refl. reflexivity.
Qed.

Lemma wrap16s_magic : wrap16s (parse16 (dump16 NetworkMagic)) = NetworkMagic.
Proof. reflexivity. Qed.

(** A frame longer than four bytes, received in a buffer of more than four
    bytes (cut to the size of the buffer when it is longer): the header can
    be read. *)
Lemma receive_header (size : Z) (m1 m2 t1 t2 x : byte) (more : list byte) :
  4 < size ->
  exists stuff contains,
    receive size (m1 :: m2 :: t1 :: t2 :: x :: more)
    = {| buf_length := 0;
         buf_buffer := m1 :: m2 :: t1 :: t2 :: x :: stuff;
         buf_actualLength := size;
         buf_contains := contains |}
    /\ 5 <= contains <= 5 + Z.of_nat (length more).
Proof.
  intros Hsize. unfold receive, Buffer.readAll, Buffer.new.
  cbn [buf_length buf_buffer buf_actualLength buf_contains].
  rewrite poke_0_zeros.
  destruct (Z.to_nat size) as [|[|[|[|[|n]]]]] eqn:Hn; try lia.
  cbn [take app length].
  eexists _, _. split; [reflexivity|].
  rewrite length_take. lia.
Qed.

Lemma readPacket_frame `{Simulation} (size : Z) (t1 t2 x : byte) (more : list byte) :
  4 < size ->
  let type := wrap16s (parse16 [t1; t2]) in
  fst (readPacket (receive size (dump16 NetworkMagic ++ t1 :: t2 :: x :: more)))
  = if type =? 0 then Return None
    else if type =? 1 then
      Return (Some (PingPacket_new (wrap16u
        (fst (Buffer.read16 (Buffer.advance 2 (Buffer.advance 2
           (receive size (dump16 NetworkMagic ++ t1 :: t2 :: x :: more)))))))))
    else if type =? 2 then Return None
    else Throw (Unknown_packet_type type).
Proof.
  intros Hsize type.
  destruct (receive_header size xd9 x7f t1 t2 x more Hsize) as (stuff & c & Hb & Hc).
  change (dump16 NetworkMagic ++ t1 :: t2 :: x :: more)
    with (xd9 :: x7f :: t1 :: t2 :: x :: more).
  rewrite Hb. rewrite readPacket_magic; [| unfold Buffer.remaining; simpl; lia | reflexivity].
  unfold after_magic.
  rewrite read16_spare by (unfold Buffer.remaining; simpl; lia).
  change (wrap16s (parse16 _)) with type.
  destruct (type =? 0); [reflexivity|].
  destruct (type =? 1); [|destruct (type =? 2); reflexivity].
  destruct (Buffer.read16 _) as [clientPing b']. reflexivity.
Qed.

Section CodecTheorems.
Context `{ser : Serialization}.

(** C1.  What the code does with the frames it writes itself: an Input
    frame and a World frame decode to no packet at all (their cases in
    [readPacket] are left to a FIXME), and a Ping frame, whose id is the
    last field of the frame, decodes to the id [-1] whatever id was sent.
    The round trip the claim asks for fails for every Input and World
    packet and for every Ping id but [-1]. *)
Theorem decode_encode_loses_the_packet
    (size : Z) (input : InputPacket) (w : World) (ping : Z) :
  4 < size ->
  decode_encode size (PacketInput input) = Return None
  /\ decode_encode size (PacketWorld w) = Return None
  /\ decode_encode size (PacketPing ping) = Return (Some (PacketPing (-1))).
Proof.
  intros Hsize. unfold decode_encode. repeat split.
  - rewrite sendPacket_Input.
    change (dump16 0 ++ dump32 (packet_tick input) ++ ?rest)
      with (x00 :: x00 :: byte_of_Z (packet_tick input / 16777216)
            :: (byte_of_Z (packet_tick input / 65536)
                :: byte_of_Z (packet_tick input / 256)
                :: byte_of_Z (packet_tick input) :: rest)).
    rewrite readPacket_frame by exact Hsize. reflexivity.
  - rewrite sendPacket_World.
    change (dump16 2 ++ dump16 ?c ++ ?rest)
      with (x00 :: x02 :: byte_of_Z (c / 256) :: (byte_of_Z c :: rest)).
    rewrite readPacket_frame by exact Hsize. reflexivity.
  - rewrite sendPacket_Ping.
    change (dump16 1 ++ dump16 ping)
      with (x00 :: x01 :: byte_of_Z (ping / 256) :: [byte_of_Z ping]).
    rewrite readPacket_frame by exact Hsize.
    change (wrap16s (parse16 [x00; x01]) =? 0) with false.
    change (wrap16s (parse16 [x00; x01]) =? 1) with true.
    cbv iota.
    destruct (receive_header size xd9 x7f x00 x01 (byte_of_Z (ping / 256))
                [byte_of_Z ping] Hsize) as (stuff & c & Hb & Hc).
    change (dump16 NetworkMagic ++ ?l) with (xd9 :: x7f :: l).
    rewrite Hb. rewrite read16_short by (unfold Buffer.remaining; simpl in *; lia).
    reflexivity.
Qed.

End CodecTheorems.

Section UnknownType.
Context `{ser : Serialization}.

(** C5, as the code has it.  A buffer that starts with the magic and whose
    type field is none of 0, 1, 2: [readPacket] throws a [MugenException]
    that names the type it read ([-1] when no byte follows the type field,
    since the read then fails) and returns nothing.  The loop of the
    client's [doReceive] has no default case: it takes the magic and the
    type off the stream, writes no line and sends nothing, and the next
    round goes on with the bytes that follow. *)
Theorem unknown_type_is_thrown
    (b : NetworkBuffer) (t1 t2 : byte) (stream : list byte)
    (s : NetworkClientObserver.t) (e : Env) :
  let type := wrap16s (parse16 (drop (Z.to_nat (buf_length b + 2)) (buf_buffer b))) in
  (2 < Buffer.remaining b ->
   wrap16s (parse16 (drop (Z.to_nat (buf_length b)) (buf_buffer b))) = NetworkMagic ->
   type <> 0 -> type <> 1 -> type <> 2 ->
   readPacket b
   = if 4 <? Buffer.remaining b
     then (Throw (Unknown_packet_type type), Buffer.advance 2 (Buffer.advance 2 b))
     else (Throw (Unknown_packet_type (-1)), Buffer.advance 2 b))
  /\ (wrap16s (parse16 [t1; t2]) <> 0 ->
      wrap16s (parse16 [t1; t2]) <> 1 ->
      wrap16s (parse16 [t1; t2]) <> 2 ->
      NetworkClientObserver.doReceive
        (dump16 NetworkMagic ++ t1 :: t2 :: stream) s e
      = Done (NetworkClientObserver.mkReceived stream [] s e)).
Proof.
  intros type. split.
  - intros Hrem Hmagic H0 H1 H2.
    rewrite (readPacket_magic b Hrem Hmagic). unfold after_magic.
    destruct (Z.ltb_spec 4 (Buffer.remaining b)) as [Hmore|Hless].
    + rewrite read16_spare by (unfold Buffer.remaining in *; simpl; lia).
      cbn [Buffer.advance buf_length buf_buffer]. fold type.
      destruct (Z.eqb_spec type 0); [contradiction|].
      destruct (Z.eqb_spec type 1); [contradiction|].
      destruct (Z.eqb_spec type 2); [contradiction|].
      reflexivity.
    + rewrite read16_short by (unfold Buffer.remaining in *; simpl; lia).
      reflexivity.
  - intros H0 H1 H2. unfold NetworkClientObserver.doReceive.
    change (dump16 NetworkMagic ++ t1 :: t2 :: stream)
      with (xd9 :: x7f :: t1 :: t2 :: stream).
    cbn [socket_read16 mbind Outcome_bind].
    change (wrap16s (parse16 [xd9; x7f]) =? NetworkMagic) with true.
    cbn [negb].
    destruct (Z.eqb_spec (wrap16s (parse16 [t1; t2])) (PacketType_code WorldType));
      [contradiction|].
    destruct (Z.eqb_spec (wrap16s (parse16 [t1; t2])) (PacketType_code PingType));
      [contradiction|].
    reflexivity.
Qed.

End UnknownType.

(** C5, as the claim has it, fails: magic, then type 7, then one more byte.
    [readPacket] throws; it does not return "no packet". *)
Lemma unknown_type_7_throws :
  fst (@readPacket counter_sim (receive 1024 [xd9; x7f; x00; x07; x00]))
  = Throw (Unknown_packet_type 7)
  /\ fst (@readPacket counter_sim (receive 1024 [xd9; x7f; x00; x07; x00]))
     <> Return None.
Proof. split; [reflexivity | discriminate]. Qed.

(** ** Rollback and replay *)

Section Replay.
Context `{ser : Serialization}.

Lemma repeat_logic_trace {laws : TickLaws sim} (n : nat) (e : Env) :
  0 <= getTicks (stage e) ->
  getTicks (stage e) + Z.of_nat n < 4294967296 ->
  trace (repeat_logic n e)
  = trace e ++ (EvLogic <$> seqZ (getTicks (stage e)) (Z.of_nat n))
  /\ getTicks (stage (repeat_logic n e)) = getTicks (stage e) + Z.of_nat n.
Proof.
  revert e. induction n as [|n IH]; intros e Hlo Hhi.
  - simpl. rewrite app_nil_r. split; [reflexivity | lia].
  - assert (Hnext : getTicks (stage (call_logic e)) = getTicks (stage e) + 1).
    { unfold call_logic. cbn [stage].
      rewrite getTicks_logic by lia. apply wrap32_small. lia. }
    destruct (IH (call_logic e)) as [Htrace Hticks]; [lia | lia |].
    cbn [repeat_logic]. rewrite Htrace, Hticks, Hnext. split; [|lia].
    rewrite (seqZ_cons (getTicks (stage e)) (Z.of_nat (S n))) by lia.
    unfold call_logic at 1. cbn [trace]. rewrite <- app_assoc. cbn [app fmap list_fmap].
    do 3 f_equal. f_equal; lia.
Qed.

(** The queue of pending inputs is empty once [getInputs] has run. *)
Lemma getInputs_empties (s : NetworkServerObserver.t) :
  (0 <? Z.of_nat (size (NetworkServerObserver.inputs
                          (NetworkServerObserver.getInputs s).2))) = false.
Proof.
  cbn [NetworkServerObserver.getInputs NetworkServerObserver.set_inputs
       NetworkServerObserver.inputs snd].
  rewrite map_size_empty. reflexivity.
Qed.

Lemma server_beforeLogic_env
    (now1 now2 : Z) (s : NetworkServerObserver.t) (e : Env) :
  (NetworkServerObserver.beforeLogic now1 now2 s e).2 = e.
Proof.
  unfold NetworkServerObserver.beforeLogic.
  destruct (NetworkServerObserver.getInputs _) as [useInputs s1] eqn:Hget.
  pose proof (getInputs_empties
                (NetworkServerObserver.set_count
                   (wrap32 (NetworkServerObserver.count
                      (if NetworkServerObserver.count s mod 30 =? 0
                       then NetworkServerObserver.sendPacket
                              (PacketWorld (snapshotState (stage e))) s
                       else s) + 1))
                   (if NetworkServerObserver.count s mod 30 =? 0
                    then NetworkServerObserver.sendPacket
                           (PacketWorld (snapshotState (stage e))) s
                    else s))) as Hempty.
  rewrite Hget in Hempty. cbn [snd] in Hempty. rewrite Hempty.
  destruct (1000 <? _); reflexivity.
Qed.

(** C3.  What the server's [beforeLogic] does to the stage: nothing.
    [getInputs] has emptied [inputs] before [inputs.size ()] is tested, so
    the block that restores the baseline and replays is never entered,
    whatever inputs arrived and whatever baseline is held; the stage is not
    restored, not stepped, and the sounds are left alone. *)
Theorem server_beforeLogic_never_replays
    (now1 now2 : Z) (s : NetworkServerObserver.t) (e : Env) :
  (NetworkServerObserver.beforeLogic now1 now2 s e).2 = e
  /\ NetworkServerObserver.inputs
       (NetworkServerObserver.beforeLogic now1 now2 s e).1 = ∅.
Proof.
  unfold NetworkServerObserver.beforeLogic.
  cbn [NetworkServerObserver.getInputs NetworkServerObserver.set_inputs
       NetworkServerObserver.inputs].
  rewrite map_size_empty. change (0 <? Z.of_nat 0) with false. cbv iota.
  destruct (1000 <? _); split; reflexivity.
Qed.

(** C4.  The block that rolls back and replays, entered with a baseline of
    tick [B] and a current tick [C], [0 <= B < C < 2^32], on a stage whose
    step advances the tick by one: the baseline is restored, the sounds are
    disabled, [logic] runs at the ticks [B], [B+1], ..., [C-1], once each
    and in this order ([C - B] calls), the sounds are enabled, and the stage
    is at tick [C].  The client's [beforeLogic] runs exactly this when
    inputs are pending, on the snapshot it has just applied or else on the
    baseline it holds. *)
Theorem replay_steps_every_tick_once {laws : TickLaws sim}
    (w : World) (C : Z) (e : Env) (s : NetworkClientObserver.t) :
  0 <= ticker w -> ticker w < C -> C < 4294967296 ->
  let replayed :=
    [EvUpdateState Rollback w; EvDisableSounds]
    ++ (EvLogic <$> seqZ (ticker w) (C - ticker w))
    ++ [EvEnableSounds] in
  trace (rollbackAndReplay (Some w) C e) = trace e ++ replayed
  /\ stepped replayed = seqZ (ticker w) (C - ticker w)
  /\ Z.of_nat (length (stepped replayed)) = C - ticker w
  /\ NoDup (stepped replayed)
  /\ (forall t, t ∈ stepped replayed <-> ticker w <= t < C)
  /\ getTicks (stage (rollbackAndReplay (Some w) C e)) = C
  /\ (getTicks (stage e) = C ->
      NetworkClientObserver.inputs s <> ∅ ->
      from_option Some (NetworkClientObserver.lastState s)
                  (NetworkClientObserver.world s) = Some w ->
      trace (NetworkClientObserver.beforeLogic s e).2
      = trace e
        ++ from_option (fun next => [EvUpdateState Snap next]) []
                       (NetworkClientObserver.world s)
        ++ replayed).
Proof.
  intros HB HBC HC replayed.
  assert (Hblock : forall e,
             trace (rollbackAndReplay (Some w) C e) = trace e ++ replayed
             /\ getTicks (stage (rollbackAndReplay (Some w) C e)) = C).
  { clear e. intros e. unfold rollbackAndReplay.
    destruct (Z.ltb_spec (ticker w) C) as [_|]; [|lia].
    rewrite wrap32_small by lia.
    set (e1 := emit EvDisableSounds (call_updateState Rollback w e)).
    assert (Ht1 : getTicks (stage e1) = ticker w)
      by (unfold e1, emit, call_updateState; simpl; apply getTicks_updateState).
    destruct (repeat_logic_trace (Z.to_nat (C - ticker w)) e1) as [Htrace Hticks];
      [lia | lia |].
    unfold emit at 1 2. cbn [trace stage]. rewrite Htrace, Hticks, Ht1.
    rewrite Z2Nat.id by lia. split; [|lia].
    unfold e1, emit, call_updateState, replayed. cbn [trace].
    rewrite <- !app_assoc. reflexivity. }
  assert (Hstepped : stepped replayed
                     = seqZ (ticker w) (C - ticker w)).
  { unfold replayed, stepped.
    cbn [app omap list_omap]. rewrite omap_app. cbn [omap list_omap].
    rewrite app_nil_r. generalize (seqZ (ticker w) (C - ticker w)).
    intros l. induction l as [|t l IH]; [reflexivity|].
    cbn [fmap list_fmap omap list_omap]. f_equal. exact IH. }
  split; [apply Hblock|]. split; [exact Hstepped|].
  split; [rewrite Hstepped, length_seqZ; lia|].
  split; [rewrite Hstepped; apply NoDup_seqZ|].
  split; [intros t; rewrite Hstepped, elem_of_seqZ; lia|].
  split; [apply Hblock|].
  intros Hnow Hpending Hbase.
  assert (Hsize : (0 <? Z.of_nat (size (NetworkClientObserver.inputs s))) = true).
  { apply Z.ltb_lt. destruct (size (NetworkClientObserver.inputs s)) eqn:Hzero; [|lia].
    exfalso. apply Hpending. apply map_size_empty_iff. exact Hzero. }
  unfold NetworkClientObserver.beforeLogic, NetworkClientObserver.getWorld.
  destruct (NetworkClientObserver.world s) as [next|];
    cbn [from_option] in *;
    cbn [NetworkClientObserver.inputs NetworkClientObserver.lastState];
    rewrite Hsize; cbn [snd]; rewrite Hbase, Hnow, wrap32_small by lia.
  - injection Hbase as ->. rewrite app_assoc.
    apply (Hblock (call_updateState Snap w e)).
  - apply Hblock.
Qed.

End Replay.

(** ** The server's hooks *)

Section ServerFacts.
Context `{ser : Serialization}.
Import NetworkServerObserver.

Lemma beforeLogic_queue (now1 now2 : Z) (s : t) (e : Env) :
  let s' := (beforeLogic now1 now2 s e).1 in
  List.filter isInput (outBox s') = List.filter isInput (outBox s)
  /\ List.filter isWorld (outBox s')
     = List.filter isWorld (outBox s)
       ++ (if count s mod 30 =? 0
           then [PacketWorld (snapshotState (stage e))] else [])
  /\ lastInput s' = lastInput s
  /\ count s' = wrap32 (count s + 1).
Proof.
  unfold beforeLogic.
  cbn [getInputs set_inputs inputs]. rewrite map_size_empty.
  change (0 <? Z.of_nat 0) with false. cbv iota.
  destruct (count s mod 30 =? 0); destruct (1000 <? _);
    cbn; rewrite ?List.filter_app, ?app_nil_r; cbn;
    rewrite ?app_nil_r; repeat split; reflexivity.
Qed.

Lemma afterLogic_queue (latest : Input) (s : t) (e : Env) :
  outBox (afterLogic latest s e)
  = outBox s
    ++ (if decide (latest = lastInput s) then []
        else [InputPacket_new latest (getTicks (stage e))])
  /\ lastInput (afterLogic latest s e) = latest
  /\ count (afterLogic latest s e) = count s.
Proof.
  unfold afterLogic. destruct (decide (latest = lastInput s)) as [->|Hne].
  - rewrite app_nil_r. repeat split; reflexivity.
  - repeat split; reflexivity.
Qed.

Lemma step_queue (i : Tick) (s : t) (e : Env) :
  let s' := (step i (s, e)).1 in
  (step i (s, e)).2 = call_logic e
  /\ List.filter isInput (outBox s')
     = List.filter isInput (outBox s)
       ++ (if decide (tick_latest i = lastInput s) then []
           else [InputPacket_new (tick_latest i) (getTicks (stage (call_logic e)))])
  /\ List.filter isWorld (outBox s')
     = List.filter isWorld (outBox s)
       ++ (if count s mod 30 =? 0
           then [PacketWorld (snapshotState (stage e))] else [])
  /\ lastInput s' = tick_latest i
  /\ count s' = wrap32 (count s + 1).
Proof.
  unfold step. cbn [fst snd].
  pose proof (server_beforeLogic_env (tick_now1 i) (tick_now2 i) s e)
    as Henv.
  destruct (beforeLogic_queue (tick_now1 i) (tick_now2 i) s e)
    as (Hin & Hworld & Hlast & Hcount).
  destruct (beforeLogic (tick_now1 i) (tick_now2 i) s e) as [s1 e1].
  cbn [fst snd] in *. subst e1.
  destruct (afterLogic_queue (tick_latest i) s1 (call_logic e))
    as (Hbox & Hlast' & Hcount').
  split; [reflexivity|].
  rewrite Hbox, !List.filter_app, Hin, Hworld, Hlast, Hlast', Hcount', Hcount.
  destruct (decide (tick_latest i = lastInput s));
    cbn; rewrite ?app_nil_r; repeat split; reflexivity.
Qed.

Lemma run_cons (i : Tick) (ticks : list Tick) (se : t * Env) :
  run (i :: ticks) se = run ticks (step i se).
Proof. reflexivity. Qed.

(** The World packets queued by [n] passes that start at the counter
    [count s]. *)
Lemma run_worlds (ticks : list Tick) (s : t) (e : Env) :
  0 <= count s ->
  count s + Z.of_nat (length ticks) < 4294967296 ->
  Z.of_nat (length (List.filter isWorld (outBox (run ticks (s, e)).1)))
  = Z.of_nat (length (List.filter isWorld (outBox s)))
    + ((count s + Z.of_nat (length ticks) + 29) / 30 - (count s + 29) / 30).
Proof.
  revert s e. induction ticks as [|i ticks IH]; intros s e Hlo Hhi.
  - cbn [run foldl fst length]. rewrite Z.add_0_r. lia.
  - rewrite run_cons.
    destruct (step_queue i s e) as (_ & _ & Hworld & _ & Hcount).
    destruct (step i (s, e)) as [s1 e1]. cbn [fst snd] in *.
    cbn [length] in Hhi.
    assert (Hc1 : count s1 = count s + 1)
      by (rewrite Hcount; apply wrap32_small; lia).
    rewrite IH by lia. rewrite Hworld, length_app, Hc1.
    cbn [length].
    destruct (Z.eqb_spec (count s mod 30) 0) as [Hdiv|Hndiv]; cbn [length];
      Z.div_mod_to_equations; lia.
Qed.

(** C6, as the code has it.  [afterLogic] queues an Input packet, with the
    whole input state and the current tick, exactly when the local input
    differs from [lastInput], which starts out as the released state and
    afterwards holds the last input queued.  Over five passes with the
    inputs I0 = I1 = I2, I2 <> I3, I3 = I4 the packet for I3 is queued in the
    fourth pass; a packet for I0 is queued in the first pass exactly when I0
    differs from [lastInput] as the passes begin: two Input packets then,
    one otherwise. *)
Theorem input_is_queued_on_change
    (latest : Input) (s : t) (e : Env) (t0 t1 t2 t3 t4 : Tick) :
  (outBox (afterLogic latest s e)
   = outBox s
     ++ (if decide (latest = lastInput s) then []
         else [InputPacket_new latest (getTicks (stage e))])
   /\ lastInput (afterLogic latest s e) = latest)
  /\ (tick_latest t1 = tick_latest t0 ->
      tick_latest t2 = tick_latest t1 ->
      tick_latest t3 <> tick_latest t2 ->
      tick_latest t4 = tick_latest t3 ->
      List.filter isInput (outBox (run [t0; t1; t2; t3; t4] (s, e)).1)
      = List.filter isInput (outBox s)
        ++ (if decide (tick_latest t0 = lastInput s) then []
            else [InputPacket_new (tick_latest t0)
                    (getTicks (stage (repeat_logic 1 e)))])
        ++ [InputPacket_new (tick_latest t3)
              (getTicks (stage (repeat_logic 4 e)))]).
Proof.
  split.
  - destruct (afterLogic_queue latest s e) as (Hbox & Hlast & _).
    split; assumption.
  - intros H10 H21 H32 H43. rewrite !run_cons. cbn [run foldl].
    destruct (step_queue t0 s e) as (He0 & Hin0 & _ & Hl0 & _).
    destruct (step t0 (s, e)) as [s0 e0]. cbn [fst snd] in *. subst e0.
    destruct (step_queue t1 s0 (call_logic e)) as (He1 & Hin1 & _ & Hl1 & _).
    destruct (step t1 _) as [s1 e1]. cbn [fst snd] in *. subst e1.
    destruct (step_queue t2 s1 (call_logic (call_logic e)))
      as (He2 & Hin2 & _ & Hl2 & _).
    destruct (step t2 _) as [s2 e2]. cbn [fst snd] in *. subst e2.
    destruct (step_queue t3 s2 (call_logic (call_logic (call_logic e))))
      as (He3 & Hin3 & _ & Hl3 & _).
    destruct (step t3 _) as [s3 e3]. cbn [fst snd] in *. subst e3.
    destruct (step_queue t4 s3
                (call_logic (call_logic (call_logic (call_logic e)))))
      as (_ & Hin4 & _ & _ & _).
    destruct (step t4 _) as [s4 e4]. cbn [fst snd] in *.
    rewrite Hin4, Hin3, Hin2, Hin1, Hin0, Hl3, Hl2, Hl1, Hl0.
    rewrite (decide_True (P := tick_latest t1 = tick_latest t0)) by exact H10.
    rewrite (decide_True (P := tick_latest t2 = tick_latest t1)) by exact H21.
    rewrite (decide_False (P := tick_latest t3 = tick_latest t2)) by exact H32.
    rewrite (decide_True (P := tick_latest t4 = tick_latest t3)) by exact H43.
    rewrite !app_nil_r, <- !app_assoc. reflexivity.
Qed.

(** C7, as the code has it.  [beforeLogic] queues a World packet, a
    snapshot of the stage, exactly when its counter of passes is a multiple
    of 30, and then adds one to the counter.  From a new observer, whose
    counter is 0, the first [n] passes queue [(n + 29) / 30] World packets:
    one in 30 passes (the first pass), two in 31 (the 31st pass has the
    counter at 30). *)
Theorem world_is_queued_every_30th_pass
    (now now1 now2 : Z) (s : t) (e : Env) (ticks : list Tick) :
  (List.filter isWorld (outBox (beforeLogic now1 now2 s e).1)
   = List.filter isWorld (outBox s)
     ++ (if count s mod 30 =? 0
         then [PacketWorld (snapshotState (stage e))] else [])
   /\ count (beforeLogic now1 now2 s e).1 = wrap32 (count s + 1))
  /\ (Z.of_nat (length ticks) < 4294967296 ->
      Z.of_nat (length (List.filter isWorld (outBox (run ticks (new now, e)).1)))
      = (Z.of_nat (length ticks) + 29) / 30).
Proof.
  split.
  - destruct (beforeLogic_queue now1 now2 s e) as (_ & Hworld & _ & Hcount).
    split; assumption.
  - intros Hn. rewrite run_worlds by (cbn; lia).
    cbn [new count outBox List.filter length].
    rewrite !Z.add_0_l. change (29 / 30) with 0. lia.
Qed.

(** C8.  The server takes a Ping whose id is in [pings]: it writes the line
    with the current time minus the time stored for the id (a [uint64_t]
    difference, the exact difference when the clock has not gone back) and
    erases the entry; nothing else changes.  The same id once more finds no
    entry: the observer and the environment stay as they are. *)
Theorem ping_echo_is_matched_once
    (now again : Z) (id sent : Z) (s : t) (e : Env) :
  pings s !! id = Some sent ->
  let s' := set_pings (delete id (pings s)) s in
  let e' := emit (EvDebug (Client_ping (wrap64 (now - sent)))) e in
  handlePacket now (PacketPing id) s e = (s', e')
  /\ (0 <= sent -> sent <= now -> now < 18446744073709551616 ->
      wrap64 (now - sent) = now - sent)
  /\ pings s' !! id = None
  /\ (forall other, other <> id -> pings s' !! other = pings s !! other)
  /\ handlePacket again (PacketPing id) s' e' = (s', e').
Proof.
  intros Hsent s' e'. repeat split.
  - unfold handlePacket. rewrite Hsent. reflexivity.
  - intros. apply wrap64_small. lia.
  - apply lookup_delete_eq.
  - intros other Hother. unfold s'. cbn [pings set_pings].
    apply lookup_delete_ne. congruence.
  - unfold handlePacket, s'. cbn [pings set_pings].
    rewrite lookup_delete_eq. reflexivity.
Qed.

End ServerFacts.

(** ** The client's snapshot slot *)

Section ClientFacts.
Context `{ser : Serialization}.
Import NetworkClientObserver.

Lemma snapped_app (tr1 tr2 : list Event) :
  snapped (tr1 ++ tr2) = snapped tr1 ++ snapped tr2.
Proof. apply omap_app. Qed.

Lemma snapped_repeat_logic (n : nat) (e : Env) :
  snapped (trace (repeat_logic n e)) = snapped (trace e).
Proof.
  revert e. induction n as [|n IH]; intros e; [reflexivity|].
  cbn [repeat_logic]. rewrite IH. unfold call_logic. cbn [trace].
  rewrite snapped_app. apply app_nil_r.
Qed.

Lemma snapped_rollbackAndReplay (held : option World) (C : Z) (e : Env) :
  snapped (trace (rollbackAndReplay held C e)) = snapped (trace e).
Proof.
  unfold rollbackAndReplay. destruct held as [w|]; [|reflexivity].
  destruct (ticker w <? C); [|reflexivity].
  unfold emit at 1. cbn [trace]. rewrite snapped_app, snapped_repeat_logic.
  unfold emit, call_updateState. cbn [trace].
  rewrite !snapped_app. cbn. rewrite !app_nil_r. reflexivity.
Qed.

(** [beforeLogic] empties the slot and applies what it held, once. *)
Lemma beforeLogic_slot (s : t) (e : Env) :
  world (beforeLogic s e).1 = None
  /\ snapped (trace (beforeLogic s e).2)
     = snapped (trace e) ++ option_list (world s).
Proof.
  unfold beforeLogic, getWorld.
  destruct (world s) as [w|]; cbn [inputs lastState world alive_];
    destruct (0 <? Z.of_nat (size (inputs s))); cbn [fst snd world];
    rewrite ?snapped_rollbackAndReplay;
    unfold call_updateState; cbn [trace option_list];
    rewrite ?snapped_app, ?app_nil_r; split; reflexivity.
Qed.

Lemma call_logic_snapped (e : Env) :
  snapped (trace (call_logic e)) = snapped (trace e).
Proof.
  unfold call_logic. cbn [trace]. rewrite snapped_app. apply app_nil_r.
Qed.

Lemma run_cons_client (c : Call) (calls : list Call) (se : t * Env) :
  run (c :: calls) se = run calls (call c se).
Proof. reflexivity. Qed.

(** What a list of calls applies, and what is left in the slot, comes from
    what the slot held and what the calls stored, in that order. *)
Lemma run_snapped (calls : list Call) (s : t) (e : Env) :
  exists applied,
    snapped (trace (run calls (s, e)).2) = snapped (trace e) ++ applied
    /\ applied ++ option_list (world (run calls (s, e)).1)
       `sublist_of` option_list (world s) ++ received calls.
Proof.
  revert s e. induction calls as [|c calls IH]; intros s e.
  - exists []. cbn [run foldl fst snd received omap list_omap].
    rewrite !app_nil_r. split; reflexivity.
  - rewrite run_cons_client. destruct c as [w|input|].
    + destruct (IH (setWorld w s) e) as (applied & Htrace & Hsub).
      exists applied. cbn [call fst snd]. split; [exact Htrace|].
      etrans; [exact Hsub|]. cbn [setWorld world option_list received omap list_omap].
      apply sublist_inserts_l. reflexivity.
    + destruct (IH (addInput input s) e) as (applied & Htrace & Hsub).
      exists applied. cbn [call fst snd]. split; [exact Htrace|].
      exact Hsub.
    + cbn [call fst snd].
      destruct (beforeLogic_slot s e) as [Hslot Hsnap].
      destruct (beforeLogic s e) as [s1 e1]. cbn [fst snd] in *.
      destruct (IH (afterLogic s1 (call_logic e1)) (call_logic e1))
        as (applied & Htrace & Hsub).
      exists (option_list (world s) ++ applied). split.
      * rewrite Htrace, call_logic_snapped, Hsnap, <- app_assoc. reflexivity.
      * rewrite <- app_assoc. apply sublist_app; [reflexivity|].
        unfold afterLogic in Hsub. rewrite Hslot in Hsub. exact Hsub.
Qed.

(** While no snapshot is stored, an empty slot stays empty and nothing is
    applied as a new baseline. *)
Lemma run_empty_slot (calls : list Call) (s : t) (e : Env) :
  world s = None -> received calls = [] ->
  world (run calls (s, e)).1 = None
  /\ snapped (trace (run calls (s, e)).2) = snapped (trace e).
Proof.
  intros Hslot Hnone.
  destruct (run_snapped calls s e) as (applied & Htrace & Hsub).
  rewrite Hslot, Hnone in Hsub. cbn in Hsub.
  apply sublist_nil_r in Hsub. apply app_eq_nil in Hsub as [-> Hworld].
  rewrite Htrace, app_nil_r. split; [|reflexivity].
  destruct (world (run calls (s, e)).1); [discriminate | reflexivity].
Qed.

(** C10.  [getWorld] returns what the slot holds and leaves the slot
    empty.  After it, as long as no [setWorld] is called, the slot stays
    empty and no pass applies a snapshot as a new baseline.  Over any list
    of calls, the snapshots applied as new baselines are, in order, among
    the one the slot held at first and those stored by [setWorld]: none is
    applied twice. *)
Theorem snapshot_is_applied_at_most_once
    (s : t) (e : Env) (calls : list Call) :
  (getWorld s).1 = world s
  /\ world (getWorld s).2 = None
  /\ (received calls = [] ->
      world (run calls ((getWorld s).2, e)).1 = None
      /\ snapped (trace (run calls ((getWorld s).2, e)).2) = snapped (trace e))
  /\ (exists applied,
        snapped (trace (run calls (s, e)).2) = snapped (trace e) ++ applied
        /\ applied `sublist_of` option_list (world s) ++ received calls).
Proof.
  split; [reflexivity|]. split; [reflexivity|]. split.
  - intros Hnone. apply run_empty_slot; [reflexivity | exact Hnone].
  - destruct (run_snapped calls s e) as (applied & Htrace & Hsub).
    exists applied. split; [exact Htrace|].
    etrans; [|exact Hsub]. apply sublist_inserts_r. reflexivity.
Qed.

(** *** Decompression *)

(** The block for a declared size of zero or more, with a decoder that
    keeps to its bound: [S + 1] bytes, the last of them zero. *)
Lemma decompress_bounded {bounded : BoundedDecoder ser}
    (data : list byte) (S : Z) :
  0 <= S ->
  exists what,
    decompress data S = Done what
    /\ Z.of_nat (length what) = S + 1
    /\ what !! Z.to_nat S = Some x00.
Proof.
  intros HS. unfold decompress, new_array.
  destruct (Z.ltb_spec (S + 1) 0) as [|_]; [lia|]. cbn [mbind Outcome_bind].
  unfold array_store. rewrite length_replicate.
  destruct (Z.leb_spec 0 S) as [_|]; [|lia].
  destruct (Z.ltb_spec S (Z.of_nat (Z.to_nat (S + 1)))) as [_|]; [|lia].
  cbn [andb]. eexists. split; [reflexivity|].
  set (block := <[Z.to_nat S := x00]> (replicate (Z.to_nat (S + 1)) x00)).
  assert (Hlen : length block = Z.to_nat (S + 1))
    by (unfold block; rewrite length_insert, length_replicate; reflexivity).
  split.
  - rewrite LZ4_uncompress_length, Hlen. lia.
  - rewrite <- (Nat.add_0_r (Z.to_nat S)), <- lookup_drop.
    rewrite LZ4_uncompress_frame by exact HS.
    rewrite lookup_drop, Nat.add_0_r. unfold block.
    apply list_lookup_insert_eq. rewrite length_replicate. lia.
Qed.

(** C2.  A World frame whose size field for the uncompressed text reads
    [-1] (the two bytes 0xff 0xff): the block is allocated with no byte at
    all, and the zero that should end the text is written at index [-1],
    before the block.  No decoder is asked: the write is out of bounds
    whatever the payload holds. *)
Theorem negative_size_is_written_out_of_bounds
    (payload : list byte) (s : t) (e : Env) :
  doReceive (dump16 NetworkMagic ++ dump16 2 ++ dump16 0 ++ [xff; xff] ++ payload) s e
  = Crashed (Out_of_bounds_write (-1) 0)
  /\ (forall data, decompress data (-1) = Crashed (Out_of_bounds_write (-1) 0))
  /\ (forall data S, S < -1 -> decompress data S = Crashed (Bad_alloc (S + 1))).
Proof.
  split; [|split; [reflexivity|]].
  - change (dump16 NetworkMagic ++ dump16 2 ++ dump16 0 ++ [xff; xff] ++ payload)
      with (xd9 :: x7f :: x00 :: x02 :: x00 :: x00 :: xff :: xff :: payload).
    unfold doReceive. cbn [socket_read16 mbind Outcome_bind].
    change (wrap16s (parse16 [xd9; x7f]) =? NetworkMagic) with true.
    change (wrap16s (parse16 [x00; x02]) =? PacketType_code WorldType) with true.
    cbn [negb]. unfold receiveWorld. cbn [socket_read16 mbind Outcome_bind].
    change (wrap16s (parse16 [x00; x00])) with 0.
    change (wrap16s (parse16 [xff; xff])) with (-1).
    change (new_array 0) with (Done (@nil byte)). cbn [mbind Outcome_bind].
    unfold socket_readBytes.
    destruct (Z.ltb_spec (Z.of_nat (length payload)) 0) as [|_]; [lia|].
    reflexivity.
  - intros data S HS. unfold decompress, new_array.
    destruct (Z.ltb_spec (S + 1) 0) as [_|]; [reflexivity | lia].
Qed.

End ClientFacts.

(** ** The laws hold on the small simulation *)

Lemma counter_laws : TickLaws counter_sim.
Proof.
  split.
  - reflexivity.
  - intros st Hst. cbn in *. unfold wrap32.
    destruct (Z.eqb_spec st 4294967295) as [->|Hne]; [reflexivity|].
    rewrite Z.mod_small; lia.
Qed.

Lemma stored_bounded : BoundedDecoder stored_ser.
Proof.
  split; intros src dest osize; cbn; unfold poke;
    change (Z.to_nat 0) with 0%nat; rewrite take_0; cbn [app].
  - rewrite length_app, length_drop, length_take. lia.
  - intros Hosize.
    set (data := take (Z.to_nat osize `min` length dest) src).
    assert (Hdata : (length data <= Z.to_nat osize)%nat)
      by (unfold data; rewrite length_take; lia).
    rewrite drop_app_ge by exact Hdata.
    rewrite drop_drop. f_equal. lia.
Qed.

(** ** Runs of the model *)

(** C9 on a Ping frame for the id 7: alone in the buffer, the id reads as
    [-1]; with one more byte behind it, as 7. *)
Lemma read_needs_a_byte_to_spare_witness :
  Buffer.read16 (at_field 128 [xd9; x7f; x00; x01] (dump16 7) [])
  = (-1, at_field 128 [xd9; x7f; x00; x01] (dump16 7) [])
  /\ Buffer.read16 (at_field 128 [xd9; x7f; x00; x01] (dump16 7) [x00])
     = (7, Buffer.advance 2 (at_field 128 [xd9; x7f; x00; x01] (dump16 7) [x00])).
Proof.
  destruct (read_needs_a_byte_to_spare
              (at_field 128 [xd9; x7f; x00; x01] (dump16 7) [])
              128 [xd9; x7f; x00; x01] 7 x00)
    as (Hshort & _ & _ & _ & Hlast).
  split.
  - apply Hshort. vm_compute. discriminate.
  - apply Hlast. vm_compute. discriminate.
Defined.

(** C1 on a Ping with the id 7, received in the buffer of 1024 bytes of
    [doClientInput]. *)
Lemma decode_encode_loses_the_packet_witness :
  @decode_encode counter_sim stored_ser 1024 (PacketPing 7)
  = Return (Some (PacketPing (-1))).
Proof.
  apply (decode_encode_loses_the_packet
           (ser := stored_ser) 1024 (mkInputPacket Input_default 0) 0 7).
  reflexivity.
Defined.

(** C5 on the frame with the type 7. *)
Lemma unknown_type_is_thrown_witness :
  @readPacket counter_sim (receive 1024 [xd9; x7f; x00; x07; x00])
  = (Throw (Unknown_packet_type 7),
     Buffer.advance 2 (Buffer.advance 2 (receive 1024 [xd9; x7f; x00; x07; x00])))
  /\ NetworkClientObserver.doReceive (ser := stored_ser)
       [xd9; x7f; x00; x07; x00] NetworkClientObserver.new (env0 0)
     = Done (NetworkClientObserver.mkReceived [x00] []
               NetworkClientObserver.new (env0 0)).
Proof.
  destruct (unknown_type_is_thrown (ser := stored_ser)
              (receive 1024 [xd9; x7f; x00; x07; x00]) x00 x07 [x00]
              NetworkClientObserver.new (env0 0)) as [Hbuffer Hloop].
  split.
  - apply Hbuffer; [reflexivity | reflexivity | | |]; vm_compute; discriminate.
  - apply Hloop; vm_compute; discriminate.
Defined.

(** C4 on the small simulation: baseline of tick 3, stage at tick 6. *)
Lemma replay_steps_every_tick_once_witness :
  trace (NetworkClientObserver.beforeLogic client_3 (env0 6)).2
  = [EvUpdateState Rollback (3 : @World counter_sim); EvDisableSounds;
     EvLogic 3; EvLogic 4; EvLogic 5; EvEnableSounds].
Proof.
  apply (replay_steps_every_tick_once (laws := counter_laws)
           (3 : @World counter_sim) 6 (env0 6) client_3).
  - discriminate.
  - reflexivity.
  - reflexivity.
  - reflexivity.
  - apply insert_non_empty.
  - reflexivity.
Defined.

(** C6, as the claim has it, fails: a new server, nothing pressed for three
    passes, then [a] pressed for two.  One Input packet is queued, not two:
    the input of the first pass equals [lastInput].  The same in the middle
    of a match: after a pass with [a] pressed and one with nothing pressed,
    the same five passes add one Input packet to the two queued before. *)
Lemma released_then_pressed_queues_one_input :
  List.filter NetworkServerObserver.isInput
    (NetworkServerObserver.outBox
       (NetworkServerObserver.run
          [pass Input_default; pass Input_default; pass Input_default;
           pass pressed_a; pass pressed_a]
          (server_0, env0 0)).1)
  = [PacketInput (mkInputPacket pressed_a 4)]
  /\ List.filter NetworkServerObserver.isInput
       (NetworkServerObserver.outBox
          (NetworkServerObserver.run
             [pass Input_default; pass Input_default; pass Input_default;
              pass pressed_a; pass pressed_a]
             (NetworkServerObserver.run
                [pass pressed_a; pass Input_default] (server_0, env0 0))).1)
     = List.filter NetworkServerObserver.isInput
         (NetworkServerObserver.outBox
            (NetworkServerObserver.run
               [pass pressed_a; pass Input_default] (server_0, env0 0)).1)
       ++ [PacketInput (mkInputPacket pressed_a 6)].
Proof. split; reflexivity. Qed.

(** C6 on the small simulation: [a] pressed for three passes, then released
    for two, from a new server. *)
Lemma input_is_queued_on_change_witness :
  List.filter NetworkServerObserver.isInput
    (NetworkServerObserver.outBox
       (NetworkServerObserver.run
          [pass pressed_a; pass pressed_a; pass pressed_a;
           pass Input_default; pass Input_default]
          (server_0, env0 0)).1)
  = [PacketInput (mkInputPacket pressed_a 1);
     PacketInput (mkInputPacket Input_default 4)].
Proof.
  apply (input_is_queued_on_change (sim := counter_sim)
           Input_default server_0 (env0 0)
           (pass pressed_a) (pass pressed_a) (pass pressed_a)
           (pass Input_default) (pass Input_default)).
  - reflexivity.
  - reflexivity.
  - discriminate.
  - reflexivity.
Defined.

(** C7, as the claim has it, fails: a new server that ticks 30 times has
    queued one World packet, the snapshot of tick 0, and no second one. *)
Lemma thirty_passes_queue_one_world :
  List.filter NetworkServerObserver.isWorld
    (NetworkServerObserver.outBox
       (NetworkServerObserver.run (replicate 30 (pass Input_default))
          (server_0, env0 0)).1)
  = [PacketWorld (0 : @World counter_sim)].
Proof. reflexivity. Qed.

(** C7 on the small simulation: 31 passes queue two World packets. *)
Lemma world_is_queued_every_30th_pass_witness :
  Z.of_nat (length (List.filter NetworkServerObserver.isWorld
    (NetworkServerObserver.outBox
       (NetworkServerObserver.run (replicate 31 (pass Input_default))
          (server_0, env0 0)).1)))
  = 2.
Proof.
  apply (world_is_queued_every_30th_pass (sim := counter_sim)
           0 0 0 server_0 (env0 0) (replicate 31 (pass Input_default))).
  reflexivity.
Defined.

(** C8 on the small simulation: the ping 7, sent at 1000, comes back at 1250;
    the line reads 250 and the table is empty; at 1300 it comes back once
    more and nothing happens. *)
Lemma ping_echo_is_matched_once_witness :
  NetworkServerObserver.handlePacket 1250 (PacketPing 7) server_7 (env0 0)
  = (NetworkServerObserver.set_pings (delete 7 {[ 7 := 1000 ]}) server_7,
     emit (EvDebug (Client_ping 250)) (env0 0))
  /\ NetworkServerObserver.handlePacket 1300 (PacketPing 7)
       (NetworkServerObserver.set_pings (delete 7 {[ 7 := 1000 ]}) server_7)
       (emit (EvDebug (Client_ping 250)) (env0 0))
     = (NetworkServerObserver.set_pings (delete 7 {[ 7 := 1000 ]}) server_7,
        emit (EvDebug (Client_ping 250)) (env0 0)).
Proof.
  destruct (ping_echo_is_matched_once (sim := counter_sim)
              1250 1300 7 1000 server_7 (env0 0))
    as (Hfirst & _ & _ & _ & Hsecond).
  - apply lookup_singleton_eq.
  - split; [exact Hfirst | exact Hsecond].
Defined.

(** C10 on the small simulation: the snapshot of tick 5 is stored once and
    three passes follow; it is applied in the first of them only. *)
Lemma snapshot_is_applied_at_most_once_witness :
  NetworkClientObserver.world
    (NetworkClientObserver.run
       [NetworkClientObserver.CallTick; NetworkClientObserver.CallTick]
       ((NetworkClientObserver.getWorld
           (NetworkClientObserver.setWorld (5 : @World counter_sim)
              NetworkClientObserver.new)).2, env0 0)).1
  = None
  /\ snapped (trace
       (NetworkClientObserver.run
          [NetworkClientObserver.CallTick; NetworkClientObserver.CallTick]
          ((NetworkClientObserver.getWorld
              (NetworkClientObserver.setWorld (5 : @World counter_sim)
                 NetworkClientObserver.new)).2, env0 0)).2)
     = [].
Proof.
  destruct (snapshot_is_applied_at_most_once (sim := counter_sim)
              (NetworkClientObserver.setWorld (5 : @World counter_sim)
                 NetworkClientObserver.new)
              (env0 0)
              [NetworkClientObserver.CallTick; NetworkClientObserver.CallTick])
    as (_ & _ & Hempty & _).
  apply Hempty. reflexivity.
Defined.

(** A pass of the client with the snapshot of tick 5 in the slot applies it;
    the next two passes apply nothing. *)
Example snapshot_5_is_applied_once :
  snapped (trace
    (NetworkClientObserver.run
       [NetworkClientObserver.CallSetWorld (5 : @World counter_sim);
        NetworkClientObserver.CallTick; NetworkClientObserver.CallTick;
        NetworkClientObserver.CallTick]
       (NetworkClientObserver.new, env0 0)).2)
  = [5].
Proof. reflexivity. Qed.

(** A World frame of the small simulation, for the snapshot of tick 9, is
    received whole; one whose size field reads [-1] stops the loop. *)
Example world_frame_is_received :
  NetworkClientObserver.world
    match NetworkClientObserver.doReceive (ser := stored_ser)
            (sendPacket (ser := stored_ser) (PacketWorld (9 : @World counter_sim)))
            NetworkClientObserver.new (env0 0) with
    | Done r => NetworkClientObserver.state r
    | _ => NetworkClientObserver.new
    end
  = Some 9.
Proof. reflexivity. Qed.

(** What reaches the client through [doClientInput]: the loop reads the
    magic and [readPacket] reads it once more, so the type of the frame is
    taken for the magic and even an Input frame leaves the observer as it
    was. *)
Example doClientInput_drops_the_frame :
  NetworkClientObserver.doClientInput (sim := counter_sim)
    (sendPacket (ser := stored_ser)
       (PacketInput (mkInputPacket pressed_a 12)))
    NetworkClientObserver.new (env0 12)
  = (true, NetworkClientObserver.new, env0 12).
Proof. reflexivity. Qed.

(** The pings above 32767: [beforeLogic] stores the ping 40000 under the key
    40000 and sends it as the [int16_t] -25536, which is what comes back and
    is looked up; the entry is never found. *)
Example ping_40000_is_never_matched :
  let s := NetworkServerObserver.set_ping 40000 server_0 in
  let s' := (NetworkServerObserver.beforeLogic 2000 2000 s (env0 0)).1 in
  NetworkServerObserver.pings s' !! 40000 = Some 2000
  /\ last (NetworkServerObserver.outBox s') = Some (PacketPing (-25536))
  /\ NetworkServerObserver.handlePacket 2100 (PacketPing (-25536)) s' (env0 0)
     = (s', env0 0).
Proof. repeat split; reflexivity. Qed.

(* ===================================================================== *)
(** * More properties of the code *)

(** ** Bytes *)

Lemma byte_of_Z_of_byte (b : byte) : byte_of_Z (Z_of_byte b) = b.
Proof. destruct b; reflexivity. Qed.

Lemma byte_of_Z_mod (v : Z) : byte_of_Z (v mod 256) = byte_of_Z v.
Proof. unfold byte_of_Z. rewrite Z.mod_mod by lia. reflexivity. Qed.

Lemma byte_of_Z_eq (v : Z) (b : byte) : v mod 256 = Z_of_byte b -> byte_of_Z v = b.
Proof.
  intros Hv. rewrite <- byte_of_Z_mod, Hv. apply byte_of_Z_of_byte.
Qed.

Lemma Z_of_byte_inj (a b : byte) : Z_of_byte a = Z_of_byte b -> a = b.
Proof.
  intros Heq. rewrite <- (byte_of_Z_of_byte a), Heq. apply byte_of_Z_of_byte.
Qed.

Lemma dump16_parse16 (hi lo : byte) :
  dump16 (wrap16s (parse16 [hi; lo])) = [hi; lo].
Proof.
  pose proof (Z_of_byte_range hi). pose proof (Z_of_byte_range lo).
  unfold dump16, wrap16s, parse16.
  f_equal; [|f_equal]; apply byte_of_Z_eq; Z.div_mod_to_equations; lia.
Qed.

Lemma parse16_is_magic (a b : byte) :
  wrap16s (parse16 [a; b]) = NetworkMagic -> a = xd9 /\ b = x7f.
Proof.
  intros Hmagic.
  assert (Hbytes : [a; b] = [xd9; x7f])
    by (rewrite <- (dump16_parse16 a b), Hmagic; reflexivity).
  injection Hbytes as -> ->. split; reflexivity.
Qed.

Lemma wrap16s_wrap16s (v : Z) : wrap16s (wrap16s v) = wrap16s v.
Proof. apply wrap16s_small, wrap16s_range. Qed.

Lemma c_string_clean (text rest : list byte) :
  x00 ∉ text -> c_string (text ++ x00 :: rest) = text.
Proof.
  induction text as [|c text IH]; intros Hclean; [reflexivity|].
  cbn [app c_string].
  destruct (Byte.eqb c x00) eqn:Hc.
  - apply Byte.byte_dec_bl in Hc. subst c. exfalso. apply Hclean. left.
  - f_equal. apply IH. intros Hin. apply Hclean. right. exact Hin.
Qed.

Lemma c_string_whole (text : list byte) : x00 ∉ text -> c_string text = text.
Proof.
  induction text as [|c text IH]; intros Hclean; [reflexivity|].
  cbn [c_string].
  destruct (Byte.eqb c x00) eqn:Hc.
  - apply Byte.byte_dec_bl in Hc. subst c. exfalso. apply Hclean. left.
  - f_equal. apply IH. intros Hin. apply Hclean. right. exact Hin.
Qed.

(** ** Receiving *)

Lemma receive_any (size : Z) (incoming : list byte) :
  receive size incoming
  = {| buf_length := 0;
       buf_buffer :=
         take (Z.to_nat size) incoming
         ++ replicate (Z.to_nat size - length (take (Z.to_nat size) incoming)) x00;
       buf_actualLength := size;
       buf_contains := Z.of_nat (length (take (Z.to_nat size) incoming)) |}.
Proof.
  unfold receive, Buffer.readAll, Buffer.new.
  cbn [buf_length buf_buffer buf_actualLength buf_contains].
  rewrite poke_0_zeros. reflexivity.
Qed.

(** A buffer large enough for [prefix] holds it at its start, whatever
    follows on the socket. *)
Lemma receive_prefix (size : Z) (prefix more : list byte) :
  Z.of_nat (length prefix) <= size ->
  exists stuff contains,
    receive size (prefix ++ more)
    = {| buf_length := 0;
         buf_buffer := prefix ++ stuff;
         buf_actualLength := size;
         buf_contains := contains |}
    /\ Z.of_nat (length prefix) <= contains <= Z.of_nat (length prefix + length more)
    /\ contains <= size.
Proof.
  intros Hfit. rewrite receive_any.
  rewrite take_app_ge by lia. rewrite <- app_assoc.
  eexists _, _. split; [reflexivity|].
  rewrite length_app, length_take. lia.
Qed.

(** ** Writing and the frames on the wire *)

Lemma put_ok (w : Write) (b : NetworkBuffer) :
  buffer_ok b ->
  buffer_ok (put w b) /\ Buffer.send (put w b) = Buffer.send b ++ wire w.
Proof.
  destruct w as [v|v|str|data]; cbn [put wire].
  - apply write16_ok.
  - apply write32_ok.
  - apply writeString_ok.
  - apply add_ok.
Qed.

Lemma send_length (b : NetworkBuffer) :
  buffer_ok b -> Z.of_nat (length (Buffer.send b)) = buf_length b.
Proof.
  intros [Hcur Hlen]. unfold Buffer.send, Buffer.getLength.
  rewrite length_take. lia.
Qed.

Lemma checkBuffer_capacity (n : Z) (b : NetworkBuffer) :
  0 <= n -> buf_actualLength b <= buf_actualLength (Buffer.checkBuffer n b).
Proof.
  intros Hn. unfold Buffer.checkBuffer.
  destruct (buf_actualLength b <=? buf_length b + n); [|lia].
  unfold Buffer.increaseBuffer. cbn [buf_actualLength]. lia.
Qed.

Lemma add_capacity (data : list byte) (b : NetworkBuffer) :
  buf_actualLength b <= buf_actualLength (Buffer.add data b).
Proof.
  unfold Buffer.add, Buffer.store. cbn [buf_actualLength].
  apply checkBuffer_capacity. lia.
Qed.

Lemma put_capacity (w : Write) (b : NetworkBuffer) :
  buf_actualLength b <= buf_actualLength (put w b).
Proof.
  destruct w as [v|v|str|data]; cbn [put].
  - apply (add_capacity (dump16 v)).
  - apply (add_capacity (dump32 v)).
  - unfold Buffer.writeString. etrans; [|apply add_capacity].
    apply (add_capacity (dump16 _)).
  - apply add_capacity.
Qed.

(** X1.  Whatever is written to a buffer, in whatever order and however
    often the block has to grow, [send] delivers the bytes of the writes one
    after the other, nothing else; the cursor counts them, stays below the
    capacity, and the capacity never shrinks. *)
Theorem writes_are_sent_in_order (size : Z) (ws : list Write) :
  0 < size ->
  Buffer.send (put_all ws (Buffer.new size)) = concat (wire <$> ws)
  /\ Buffer.getLength (put_all ws (Buffer.new size))
     = Z.of_nat (length (concat (wire <$> ws)))
  /\ Buffer.getLength (put_all ws (Buffer.new size))
     < buf_actualLength (put_all ws (Buffer.new size))
  /\ size <= buf_actualLength (put_all ws (Buffer.new size)).
Proof.
  intros Hsize.
  assert (Hgen : forall b, buffer_ok b ->
            buffer_ok (put_all ws b)
            /\ Buffer.send (put_all ws b) = Buffer.send b ++ concat (wire <$> ws)
            /\ buf_actualLength b <= buf_actualLength (put_all ws b)).
  { induction ws as [|w ws IH]; intros b Hok.
    - cbn. rewrite app_nil_r. repeat split; [apply Hok.. | lia].
    - destruct (put_ok w b Hok) as [Hok' Hsend].
      destruct (IH (put w b) Hok') as (Hok'' & Hsend'' & Hcap).
      unfold put_all in *. cbn [foldl fmap list_fmap concat].
      split; [exact Hok''|]. split.
      + rewrite Hsend'', Hsend, <- app_assoc. reflexivity.
      + etrans; [|exact Hcap]. apply put_capacity. }
  destruct (Hgen (Buffer.new size) (new_ok size Hsize)) as (Hok & Hsend & Hcap).
  rewrite send_new in Hsend. cbn [app] in Hsend.
  split; [exact Hsend|]. split.
  - unfold Buffer.getLength. rewrite <- (send_length _ Hok), Hsend. reflexivity.
  - split; [apply Hok | exact Hcap].
Qed.

Section Frames.
Context `{ser : Serialization}.

(** X2.  The frames [sendPacket] puts on the wire, however long the payload
    is: the magic d9 7f, the type (0 Input, 1 Ping, 2 World) and the payload.
    Input: the tick in four bytes, the size of the text in two, the text.
    World: the size of the compressed text and the size of the text, each as
    an [int16_t], then the compressed text.  Ping: the id.  The client's
    [sendPing] writes the frame of a Ping. *)
Theorem frames_on_the_wire (input : InputPacket) (w : World) (ping : Z) :
  sendPacket (PacketInput input)
  = [xd9; x7f; x00; x00] ++ dump32 (packet_tick input)
    ++ dump16 (wrap16s (Z.of_nat (length (inputToString (packet_inputs input)))))
    ++ inputToString (packet_inputs input)
  /\ sendPacket (PacketWorld w)
     = [xd9; x7f; x00; x02]
       ++ dump16 (wrap16s (Z.of_nat (length (LZ4_compress (worldToString w)))))
       ++ dump16 (wrap16s (Z.of_nat (length (worldToString w))))
       ++ LZ4_compress (worldToString w)
  /\ sendPacket (PacketPing ping) = [xd9; x7f; x00; x01] ++ dump16 ping
  /\ NetworkClientObserver.sendPing ping = sendPacket (PacketPing ping).
Proof.
  rewrite sendPacket_Input, sendPacket_World, sendPacket_Ping.
  repeat split; reflexivity.
Qed.

End Frames.

(** ** Reading packets *)

(** X3.  Unless the bytes received start with the magic d9 7f and at least
    one more byte, [readPacket] returns no packet and throws nothing: so for
    garbage, for an empty buffer, and for the two bytes of the magic alone. *)
Theorem wrong_magic_is_no_packet `{Simulation} (size : Z) (incoming : list byte) :
  (forall third rest, incoming <> xd9 :: x7f :: third :: rest) ->
  fst (readPacket (receive size incoming)) = Return None.
Proof.
  intros Hnot. rewrite receive_any.
  set (got := take (Z.to_nat size) incoming).
  set (b := {| buf_length := 0; buf_buffer := _ |}).
  destruct (Z.le_gt_cases (Buffer.remaining b) 2) as [Hshort|Hlong].
  - unfold readPacket. rewrite (read16_short b Hshort). reflexivity.
  - unfold readPacket. rewrite (read16_spare b Hlong).
    unfold Buffer.remaining, b in Hlong. cbn in Hlong.
    destruct (Z.eqb_spec
                (wrap16s (parse16 (drop (Z.to_nat (buf_length b)) (buf_buffer b))))
                NetworkMagic) as [Hmagic|Hne]; [|reflexivity].
    exfalso. unfold b in Hmagic. cbn [buf_length buf_buffer] in Hmagic.
    change (Z.to_nat 0) with 0%nat in Hmagic. rewrite drop_0 in Hmagic.
    destruct got as [|a1 [|a2 [|a3 got']]] eqn:Hgot; cbn in Hlong; try lia.
    cbn [app parse16] in Hmagic.
    apply (parse16_is_magic a1 a2) in Hmagic as [-> ->].
    pose proof (take_drop (Z.to_nat size) incoming) as Hsplit.
    fold got in Hsplit. rewrite Hgot in Hsplit. cbn [app] in Hsplit.
    apply (Hnot a3 (got' ++ drop (Z.to_nat size) incoming)). symmetry. exact Hsplit.
Qed.

(** X4.  [readPacket] never yields an Input packet or a World packet.  From
    any buffer it returns no packet, or a Ping whose id is an [int16_t], or it
    throws for a type that is none of 0, 1, 2. *)
Theorem readPacket_yields_pings_only `{Simulation} (b : NetworkBuffer) :
  (fst (readPacket b) = Return None)
  \/ (exists id, fst (readPacket b) = Return (Some (PacketPing id))
                 /\ -32768 <= id < 32768)
  \/ (exists type, fst (readPacket b) = Throw (Unknown_packet_type type)
                   /\ type <> 0 /\ type <> 1 /\ type <> 2).
Proof.
  unfold readPacket.
  destruct (Buffer.read16 b) as [magic b1].
  destruct (magic =? NetworkMagic); [|left; reflexivity]. cbn [negb].
  destruct (Buffer.read16 b1) as [type b2].
  destruct (Z.eqb_spec type (PacketType_code InputType)); [left; reflexivity|].
  destruct (Z.eqb_spec type (PacketType_code PingType)).
  { destruct (Buffer.read16 b2) as [clientPing b3]. right. left.
    eexists. split; [reflexivity|]. apply wrap16s_range. }
  destruct (Z.eqb_spec type (PacketType_code WorldType)); [left; reflexivity|].
  right. right. exists type. cbn in *. repeat split; assumption.
Qed.

Section PingFrame.
Context `{ser : Serialization}.

(** X5.  A Ping frame is decoded when something follows it in the buffer:
    with one byte or more behind the frame, [readPacket] returns the Ping
    with the id that was sent (as an [int16_t]). *)
Theorem ping_frame_with_a_byte_behind_is_decoded
    (size : Z) (ping : Z) (x : byte) (more : list byte) :
  6 < size ->
  fst (readPacket (receive size (sendPacket (PacketPing ping) ++ x :: more)))
  = Return (Some (PacketPing (wrap16s ping))).
Proof.
  intros Hsize. rewrite sendPacket_Ping.
  destruct (receive_prefix size
              (dump16 NetworkMagic ++ dump16 1 ++ dump16 ping ++ [x]) more)
    as (stuff & c & Hb & Hc & _); [cbn; lia|].
  replace ((dump16 NetworkMagic ++ dump16 1 ++ dump16 ping) ++ x :: more)
    with ((dump16 NetworkMagic ++ dump16 1 ++ dump16 ping ++ [x]) ++ more)
    by (rewrite <- !app_assoc; reflexivity).
  rewrite Hb. cbn in Hc.
  rewrite readPacket_magic;
    [| unfold Buffer.remaining; cbn; lia | reflexivity].
  unfold after_magic.
  rewrite read16_spare by (unfold Buffer.remaining; cbn; lia).
  cbn [Buffer.advance buf_length buf_buffer buf_contains buf_actualLength].
  change (wrap16s (parse16 (drop (Z.to_nat (0 + 2)) _))) with 1.
  cbv iota beta. change (1 =? 0) with false. change (1 =? 1) with true. cbv iota.
  rewrite read16_spare by (unfold Buffer.remaining; cbn; lia).
  cbn [Buffer.advance buf_length buf_buffer buf_contains buf_actualLength fst].
  change (drop (Z.to_nat (0 + 2 + 2)) _)
    with (dump16 ping ++ [x] ++ stuff).
  rewrite parse16_dump16. unfold PingPacket_new.
  rewrite !wrap16s_wrap16u, wrap16s_wrap16s. reflexivity.
Qed.

End PingFrame.

(** ** Strings *)

(** X6.  A string written with [operator<<] and received whole is read back
    by [operator>>] up to its first zero byte, so exactly when it holds none,
    provided it is not empty and shorter than 32768 bytes; the cursor ends
    behind it.  An empty string reads as "nothing read": the target string
    is left as it was. *)
Theorem string_round_trip (size : Z) (frame str trailing : list byte) :
  Z.of_nat (length (frame ++ wire (PutString str) ++ trailing)) <= size ->
  Z.of_nat (length str) < 32768 ->
  (str <> [] ->
   Buffer.readString (at_field size frame (wire (PutString str)) trailing)
   = (Some (c_string str),
      Buffer.advance (Z.of_nat (length str))
        (Buffer.advance 2 (at_field size frame (wire (PutString str)) trailing)))
   /\ (x00 ∉ str -> c_string str = str))
  /\ (str = [] ->
      fst (Buffer.readString (at_field size frame (wire (PutString str)) trailing))
      = None).
Proof.
  intros Hfit Hshort.
  destruct (at_field_spec size frame (wire (PutString str)) trailing Hfit)
    as [Hrem Hdrop].
  set (b := at_field size frame (wire (PutString str)) trailing) in *.
  assert (Hcur : buf_length b = Z.of_nat (length frame))
    by (unfold b, at_field, Buffer.advance; rewrite receive_any; reflexivity).
  cbn [wire] in Hrem, Hdrop. rewrite length_app in Hrem.
  change (length (dump16 _)) with 2%nat in Hrem.
  rewrite <- app_assoc in Hdrop.
  split.
  - intros Hne.
    assert (Hlen : (0 < length str)%nat) by (destruct str; [congruence | cbn; lia]).
    split; [|apply c_string_whole].
    unfold Buffer.readString.
    rewrite read16_spare by lia.
    rewrite Hdrop, parse16_dump16, wrap16s_wrap16u, wrap16s_wrap16s.
    rewrite wrap16s_small by lia.
    destruct (Z.ltb_spec 0 (Z.of_nat (length str))) as [_|]; [|lia].
    cbn [Buffer.advance buf_length buf_contains buf_buffer andb].
    unfold Buffer.remaining in Hrem.
    destruct (Z.leb_spec (buf_length b + 2 + Z.of_nat (length str)) (buf_contains b))
      as [_|]; [|lia].
    rewrite Nat2Z.id.
    replace (Z.to_nat (buf_length b + 2)) with (Z.to_nat (buf_length b) + 2)%nat by lia.
    rewrite <- drop_drop, Hdrop. cbn [dump16 app drop].
    rewrite drop_0, take_app_length. reflexivity.
  - intros ->. unfold Buffer.readString.
    destruct (Z.le_gt_cases (Buffer.remaining b) 2) as [Hfew|Hmany].
    + rewrite (read16_short b Hfew). reflexivity.
    + rewrite (read16_spare b Hmany).
      rewrite Hdrop, parse16_dump16. reflexivity.
Qed.

(** ** The server's queues *)

Section Queues.
Context `{ser : Serialization}.
Import NetworkServerObserver.

Lemma set_outBox_same (s : t) : set_outBox (outBox s) s = s.
Proof. destruct s. reflexivity. Qed.

Lemma drain_front (n : nat) (s : t) :
  (n <= length (outBox s))%nat ->
  drain n s
  = (Mugen.sendPacket <$> take n (outBox s), set_outBox (drop n (outBox s)) s).
Proof.
  revert s. induction n as [|n IH]; intros s Hn.
  - cbn [drain]. rewrite take_0, drop_0, set_outBox_same. reflexivity.
  - destruct s as [box inb li pg al ct lp pn ls ins].
    destruct box as [|p box]; cbn [outBox length] in Hn; [lia|].
    cbn [drain doSend getSendPacket outBox set_outBox fmap option_fmap option_map].
    rewrite IH by (cbn [outBox set_outBox]; lia).
    reflexivity.
Qed.

Lemma queue_all_outBox (packets : list Packet) (s : t) :
  outBox (queue_all packets s) = outBox s ++ packets.
Proof.
  revert s. induction packets as [|p packets IH]; intros s.
  - cbn. rewrite app_nil_r. reflexivity.
  - unfold queue_all in *. cbn [foldl]. rewrite IH.
    cbn [sendPacket set_outBox outBox]. rewrite <- app_assoc. reflexivity.
Qed.

(** X7.  The queue of the server is first in, first out: packets handed to
    [sendPacket] go behind those already queued, the sending thread puts
    their frames on the socket in that order, one frame per round, and once
    the queue is empty a round sends nothing. *)
Theorem outBox_is_sent_in_order (packets : list Packet) (s : t) (n : nat) :
  outBox (queue_all packets s) = outBox s ++ packets
  /\ ((n <= length (outBox s ++ packets))%nat ->
      (drain n (queue_all packets s)).1
      = Mugen.sendPacket <$> take n (outBox s ++ packets)
      /\ outBox (drain n (queue_all packets s)).2 = drop n (outBox s ++ packets))
  /\ (drain (length (outBox s ++ packets)) (queue_all packets s)).1
     = Mugen.sendPacket <$> (outBox s ++ packets)
  /\ doSend (drain (length (outBox s ++ packets)) (queue_all packets s)).2
     = (None, (drain (length (outBox s ++ packets)) (queue_all packets s)).2).
Proof.
  pose proof (queue_all_outBox packets s) as Hbox.
  split; [exact Hbox|].
  assert (Hdrain : forall k, (k <= length (outBox s ++ packets))%nat ->
            drain k (queue_all packets s)
            = (Mugen.sendPacket <$> take k (outBox s ++ packets),
               set_outBox (drop k (outBox s ++ packets)) (queue_all packets s))).
  { intros k Hk. rewrite drain_front by (rewrite Hbox; exact Hk).
    rewrite Hbox. reflexivity. }
  split; [|split].
  - intros Hn. rewrite Hdrain by exact Hn. split; reflexivity.
  - rewrite Hdrain by lia. cbn [fst]. rewrite take_ge by lia. reflexivity.
  - rewrite Hdrain by lia. cbn [snd]. rewrite drop_all. reflexivity.
Qed.

End Queues.

(** ** Pending inputs *)

Lemma inserts_keep_the_latest (ps : list InputPacket) (m : gmap Z InputPacket) (t : Z) :
  foldl (fun m p => <[packet_tick p := p]> m) m ps !! t
  = match last (filter (fun p => packet_tick p = t) ps) with
    | Some p => Some p
    | None => m !! t
    end.
Proof.
  induction ps as [|p ps IH] using rev_ind; [reflexivity|].
  rewrite foldl_app, filter_app, last_app. cbn [foldl].
  rewrite filter_cons, filter_nil.
  destruct (decide (packet_tick p = t)) as [Heq|Hne].
  - cbn [last]. rewrite Heq. apply lookup_insert_eq.
  - cbn [last]. rewrite lookup_insert_ne by exact Hne. exact IH.
Qed.

Section Inputs.
Context `{ser : Serialization}.

Lemma server_addInputs_table (ps : list InputPacket) (s : NetworkServerObserver.t) :
  NetworkServerObserver.inputs (server_addInputs ps s)
  = foldl (fun m p => <[packet_tick p := p]> m) (NetworkServerObserver.inputs s) ps.
Proof.
  revert s. induction ps as [|p ps IH]; intros s; [reflexivity|].
  unfold server_addInputs in *. cbn [foldl]. rewrite IH. reflexivity.
Qed.

Lemma client_addInputs_table (ps : list InputPacket) (s : NetworkClientObserver.t) :
  NetworkClientObserver.inputs (client_addInputs ps s)
  = foldl (fun m p => <[packet_tick p := p]> m) (NetworkClientObserver.inputs s) ps.
Proof.
  revert s. induction ps as [|p ps IH]; intros s; [reflexivity|].
  unfold client_addInputs in *. cbn [foldl]. rewrite IH. reflexivity.
Qed.

(** X8.  The table of pending inputs holds one input per tick: of the inputs
    stored for a tick the last one stored is kept (an earlier one for the
    same tick is overwritten), inputs for other ticks stay, on the server
    and on the client alike.  The server's [getInputs] hands the table out
    and leaves it empty. *)
Theorem inputs_keep_the_latest_of_a_tick
    (ps : list InputPacket) (t : Z)
    (s : NetworkServerObserver.t) (c : NetworkClientObserver.t) :
  NetworkServerObserver.inputs (server_addInputs ps s) !! t
  = match last (filter (fun p => packet_tick p = t) ps) with
    | Some p => Some p
    | None => NetworkServerObserver.inputs s !! t
    end
  /\ NetworkClientObserver.inputs (client_addInputs ps c) !! t
     = match last (filter (fun p => packet_tick p = t) ps) with
       | Some p => Some p
       | None => NetworkClientObserver.inputs c !! t
       end
  /\ (NetworkServerObserver.getInputs (server_addInputs ps s)).1 !! t
     = NetworkServerObserver.inputs (server_addInputs ps s) !! t
  /\ NetworkServerObserver.inputs
       (NetworkServerObserver.getInputs (server_addInputs ps s)).2 = ∅.
Proof.
  rewrite server_addInputs_table, client_addInputs_table.
  rewrite !inserts_keep_the_latest. repeat split; try reflexivity.
  cbn [NetworkServerObserver.getInputs fst].
  rewrite server_addInputs_table. apply inserts_keep_the_latest.
Qed.

End Inputs.

(** ** Pings *)

Section Pings.
Context `{ser : Serialization}.
Import NetworkServerObserver.

(** What [beforeLogic] does to the ping bookkeeping and to the queue. *)
Lemma beforeLogic_ping (now1 now2 : Z) (s : t) (e : Env) :
  let s' := (beforeLogic now1 now2 s e).1 in
  let world :=
    if count s mod 30 =? 0
    then [PacketWorld (snapshotState (stage e))] else [] in
  if 1000 <? wrap64 (now1 - lastPing s)
  then outBox s' = outBox s ++ world ++ [PacketPing (wrap16s (ping s))]
       /\ pings s' = <[ping s := wrap64 now2]> (pings s)
       /\ ping s' = wrap16u (ping s + 1)
       /\ lastPing s' = wrap64 now2
       /\ lastInput s' = lastInput s
  else outBox s' = outBox s ++ world
       /\ pings s' = pings s
       /\ ping s' = ping s
       /\ lastPing s' = lastPing s
       /\ lastInput s' = lastInput s.
Proof.
  destruct s as [box inb li pg al ct lp pn ls ins].
  cbv [beforeLogic getInputs set_inputs set_count sendPacket set_outBox nextPing
       set_lastPing set_ping set_pings outBox inBox lastInput pings alive_ count
       lastPing ping lastState inputs fst snd].
  rewrite map_size_empty. change (0 <? Z.of_nat 0) with false. cbv iota.
  destruct (ct mod 30 =? 0); destruct (1000 <? wrap64 (now1 - lp));
    cbv [PingPacket_new]; rewrite <- ?app_assoc, ?app_nil_r;
    repeat split; reflexivity.
Qed.


Lemma beforeLogic_ping_table (now1 now2 : Z) (s : t) (e : Env) :
  ping_table_ok s -> ping_table_ok (beforeLogic now1 now2 s e).1.
Proof.
  intros [Hkeys Hcounter].
  pose proof (beforeLogic_ping now1 now2 s e) as Hping. cbv zeta in Hping.
  destruct (1000 <? wrap64 (now1 - lastPing s));
    destruct Hping as (_ & Hpings & Hcount & _).
  - split.
    + intros id. rewrite Hpings. intros Hsome.
      destruct (decide (ping s = id)) as [<-|Hne]; [exact Hcounter|].
      rewrite lookup_insert_ne in Hsome by exact Hne. apply Hkeys, Hsome.
    + rewrite Hcount. unfold wrap16u. apply Z.mod_pos_bound. lia.
  - split.
    + intros id. rewrite Hpings. apply Hkeys.
    + rewrite Hcount. exact Hcounter.
Qed.

Lemma server_call_ping_table (c : ServerCall) (se : t * Env) :
  ping_table_ok se.1 -> ping_table_ok (server_call c se).1.
Proof.
  destruct se as [s e]. cbn [fst]. intros Hok.
  destruct c as [i|now packet| |]; cbn [server_call fst snd].
  - unfold step. cbn [fst snd].
    pose proof (beforeLogic_ping_table (tick_now1 i) (tick_now2 i) s e Hok) as Hok'.
    destruct (beforeLogic (tick_now1 i) (tick_now2 i) s e) as [s1 e1].
    cbn [fst] in *. unfold afterLogic.
    destruct (decide (tick_latest i = lastInput s1)); [exact Hok'|].
    exact Hok'.
  - destruct packet as [input|client|w]; cbn [handlePacket]; [exact Hok| |exact Hok].
    destruct (pings s !! client) as [sent|] eqn:Hsent; [|exact Hok].
    destruct Hok as [Hkeys Hcounter]. split; [|exact Hcounter].
    intros id. cbn [fst pings set_pings]. intros Hsome.
    apply Hkeys. destruct (decide (client = id)) as [<-|Hne].
    + rewrite lookup_delete_eq in Hsome. destruct Hsome as [? ?]. discriminate.
    + rewrite lookup_delete_ne in Hsome by exact Hne. exact Hsome.
  - unfold getSendPacket. destruct (outBox s); exact Hok.
  - exact Hok.
Qed.

Lemma server_run_ping_table (calls : list ServerCall) (se : t * Env) :
  ping_table_ok se.1 -> ping_table_ok (server_run calls se).1.
Proof.
  revert se. induction calls as [|c calls IH]; intros se Hok; [exact Hok|].
  unfold server_run in *. cbn [foldl]. apply IH, server_call_ping_table, Hok.
Qed.

(** X10.  Whatever the server has done since it was made (passes, packets
    handled, frames taken by the sending thread), the keys of its ping table
    are [uint16_t] values.  A Ping is looked up by its [int16_t] id: one with
    a negative id is never found, so the echo of every ping the server
    numbered 32768 or more is ignored. *)
Theorem high_ping_is_never_matched
    (calls : list ServerCall) (now0 now : Z) (e : Env) (id : Z) :
  ping_table_ok (server_run calls (new now0, e)).1
  /\ (32768 <= id < 65536 ->
      PingPacket_new id = PacketPing (id - 65536)
      /\ handlePacket now (PingPacket_new id)
           (server_run calls (new now0, e)).1 (server_run calls (new now0, e)).2
         = server_run calls (new now0, e)).
Proof.
  assert (Hok : ping_table_ok (server_run calls (new now0, e)).1).
  { apply server_run_ping_table. split.
    - intros k [v Hv]. cbn in Hv. rewrite lookup_empty in Hv. discriminate.
    - cbn. lia. }
  split; [exact Hok|]. intros Hid.
  assert (Hwrap : wrap16s id = id - 65536)
    by (unfold wrap16s; Z.div_mod_to_equations; lia).
  unfold PingPacket_new. rewrite Hwrap. split; [reflexivity|].
  destruct (server_run calls (new now0, e)) as [s e']. cbn [fst snd] in *.
  unfold handlePacket.
  destruct (pings s !! (id - 65536)) as [sent|] eqn:Hsent; [|reflexivity].
  destruct Hok as [Hkeys _].
  assert (0 <= id - 65536 < 65536) by (apply Hkeys; eexists; exact Hsent). lia.
Qed.

(** X11.  What one pass of the match loop queues, and in which order: the
    World packet when the counter of passes is a multiple of 30 (a snapshot
    taken before the step), then the Ping when one is due, then, after the
    step, the Input packet when the local input changed (with the tick the
    stage has after the step).  Nothing else is queued and nothing is taken
    from the queue. *)
Theorem pass_queues_world_ping_input (i : Tick) (s : t) (e : Env) :
  outBox (step i (s, e)).1
  = outBox s
    ++ (if count s mod 30 =? 0
        then [PacketWorld (snapshotState (stage e))] else [])
    ++ (if 1000 <? wrap64 (tick_now1 i - lastPing s)
        then [PacketPing (wrap16s (ping s))] else [])
    ++ (if decide (tick_latest i = lastInput s) then []
        else [PacketInput (mkInputPacket (tick_latest i)
                             (wrap32 (getTicks (logic (stage e)))))])
  /\ stage (step i (s, e)).2 = logic (stage e).
Proof.
  unfold step. cbn [fst snd].
  pose proof (server_beforeLogic_env (tick_now1 i) (tick_now2 i) s e) as Henv.
  pose proof (beforeLogic_ping (tick_now1 i) (tick_now2 i) s e) as Hping.
  cbv zeta in Hping.
  destruct (beforeLogic (tick_now1 i) (tick_now2 i) s e) as [s1 e1].
  cbn [fst snd] in *. subst e1. split; [|reflexivity].
  destruct (afterLogic_queue (tick_latest i) s1 (call_logic e)) as (Hbox & _).
  rewrite Hbox.
  destruct (1000 <? wrap64 (tick_now1 i - lastPing s));
    destruct Hping as (Hbox1 & _ & _ & _ & Hlast);
    rewrite Hbox1, Hlast, <- !app_assoc; cbn [app]; rewrite ?app_nil_r;
    reflexivity.
Qed.

End Pings.

(** ** The client's reliable socket *)

Lemma socket_read16_dump16 (v : Z) (rest : list byte) :
  socket_read16 (dump16 v ++ rest) = Done (wrap16s v, rest).
Proof.
  cbn [dump16 app socket_read16].
  change [byte_of_Z (v / 256); byte_of_Z v] with (dump16 v ++ []).
  rewrite parse16_dump16, wrap16s_wrap16u. reflexivity.
Qed.

Section ClientSocket.
Context `{ser : Serialization}.
Import NetworkClientObserver.

(** X12.  The client answers a Ping at once and with the same bytes: the
    six bytes of the frame go back to the server as they came, the id
    untouched, and the observer and the stage are left alone. *)
Theorem client_echoes_the_ping_frame
    (hi lo : byte) (stream : list byte) (s : t) (e : Env) :
  doReceive ([xd9; x7f; x00; x01; hi; lo] ++ stream) s e
  = Done (mkReceived stream [xd9; x7f; x00; x01; hi; lo] s e).
Proof.
  unfold doReceive. cbn [app socket_read16 mbind Outcome_bind].
  change (wrap16s (parse16 [xd9; x7f]) =? NetworkMagic) with true.
  change (wrap16s (parse16 [x00; x01]) =? PacketType_code WorldType) with false.
  change (wrap16s (parse16 [x00; x01]) =? PacketType_code PingType) with true.
  cbn [negb].
  change (sendPing (wrap16s (parse16 [hi; lo])))
    with (sendPacket (PacketPing (wrap16s (parse16 [hi; lo])))).
  rewrite sendPacket_Ping, dump16_parse16. reflexivity.
Qed.

Lemma decompress_value (data : list byte) (S : Z) :
  0 <= S ->
  decompress data S
  = Done (LZ4_uncompress data
            (<[Z.to_nat S := x00]> (replicate (Z.to_nat (S + 1)) x00)) S).
Proof.
  intros HS. unfold decompress, new_array.
  destruct (Z.ltb_spec (S + 1) 0) as [|_]; [lia|]. cbn [mbind Outcome_bind].
  unfold array_store. rewrite length_replicate.
  destruct (Z.leb_spec 0 S) as [_|]; [|lia].
  destruct (Z.ltb_spec S (Z.of_nat (Z.to_nat (S + 1)))) as [_|]; [|lia].
  reflexivity.
Qed.

(** The header of a World frame as [sendPacket] writes it is read back
    when the compressed text is shorter than 32768 bytes; what is left is
    the decompression and the reading of the text. *)
Lemma doReceive_world_frame (w : World) (stream : list byte) (s : t) (e : Env) :
  Z.of_nat (length (LZ4_compress (worldToString w))) < 32768 ->
  doReceive (sendPacket (PacketWorld w) ++ stream) s e
  = (what ← decompress (LZ4_compress (worldToString w))
              (wrap16s (Z.of_nat (length (worldToString w)))) ;
     match worldFromString (c_string what) with
     | Some w' => Done (mkReceived stream [] (setWorld w' s) e)
     | None => Done (mkReceived stream [] s e)
     end).
Proof.
  intros Hc. rewrite sendPacket_World. rewrite <- !app_assoc.
  unfold doReceive. rewrite socket_read16_dump16. cbn [mbind Outcome_bind].
  change (wrap16s NetworkMagic =? NetworkMagic) with true. cbn [negb].
  rewrite socket_read16_dump16. cbn [mbind Outcome_bind].
  change (wrap16s 2 =? PacketType_code WorldType) with true. cbv iota.
  unfold receiveWorld.
  rewrite socket_read16_dump16. cbn [mbind Outcome_bind].
  rewrite socket_read16_dump16. cbn [mbind Outcome_bind].
  rewrite !wrap16s_wrap16s.
  set (out := LZ4_compress (worldToString w)) in *.
  rewrite (wrap16s_small (Z.of_nat (length out))) by lia.
  unfold new_array at 1.
  destruct (Z.ltb_spec (Z.of_nat (length out)) 0) as [|_]; [lia|].
  cbn [mbind Outcome_bind]. unfold socket_readBytes.
  rewrite length_app.
  destruct (Z.ltb_spec (Z.of_nat (length out + length stream)) (Z.of_nat (length out)))
    as [|_]; [lia|].
  cbn [mbind Outcome_bind]. rewrite Nat2Z.id.
  rewrite take_app_length, drop_app_length, poke_0_zeros, Nat.sub_diag.
  cbn [replicate]. rewrite app_nil_r. reflexivity.
Qed.

(** X13.  A World packet reaches the client: when the text of the world
    and its compressed form are shorter than 32768 bytes and the text holds
    no zero byte, and the decoder gives back what the encoder was given
    within its bound, the frame [sendPacket] writes is taken off the stream
    whole and the world the reader makes of the text is put in the slot;
    nothing is logged and nothing is sent back. *)
Theorem world_frame_fills_the_slot
    {bounded : BoundedDecoder ser} {lossless : Lossless ser}
    (w : World) (stream : list byte) (s : t) (e : Env) :
  Z.of_nat (length (worldToString w)) < 32768 ->
  Z.of_nat (length (LZ4_compress (worldToString w))) < 32768 ->
  x00 ∉ worldToString w ->
  doReceive (sendPacket (PacketWorld w) ++ stream) s e
  = Done (mkReceived stream []
            (match worldFromString (worldToString w) with
             | Some w' => setWorld w' s
             | None => s
             end) e).
Proof.
  intros Hn Hc Hclean.
  rewrite doReceive_world_frame by exact Hc.
  set (text := worldToString w) in *.
  rewrite wrap16s_small by lia.
  rewrite decompress_value by lia. cbn [mbind Outcome_bind].
  set (block := <[Z.to_nat (Z.of_nat (length text)) := x00]>
                  (replicate (Z.to_nat (Z.of_nat (length text) + 1)) x00)).
  set (what := LZ4_uncompress (LZ4_compress text) block (Z.of_nat (length text))).
  assert (Hblock : length block = Datatypes.S (length text))
    by (unfold block; rewrite length_insert, length_replicate; lia).
  assert (Hhead : take (length text) what = text)
    by (apply LZ4_round_trip; lia).
  assert (Htail : drop (length text) what = [x00]).
  { unfold what. rewrite <- (Nat2Z.id (length text)) at 1.
    rewrite LZ4_uncompress_frame by lia. rewrite Nat2Z.id. unfold block.
    rewrite Nat2Z.id. rewrite insert_replicate.
    rewrite drop_replicate.
    replace (Z.to_nat (Z.of_nat (length text) + 1) - length text)%nat with 1%nat by lia.
    reflexivity. }
  assert (Hwhat : what = text ++ [x00])
    by (rewrite <- (take_drop (length text) what), Hhead, Htail; reflexivity).
  rewrite Hwhat, c_string_clean by exact Hclean.
  destruct (worldFromString text); reflexivity.
Qed.

(** X14.  A world whose text has 32768 bytes or more, up to 65535, stops
    the client: [sendPacket] writes the size as an [int16_t], [doReceive]
    reads it back negative and either asks for a block of negative size or,
    for 65535 bytes, writes the closing zero before an empty block. *)
Theorem oversized_world_stops_the_client
    (w : World) (stream : list byte) (s : t) (e : Env) :
  32768 <= Z.of_nat (length (worldToString w)) < 65536 ->
  Z.of_nat (length (LZ4_compress (worldToString w))) < 32768 ->
  doReceive (sendPacket (PacketWorld w) ++ stream) s e
  = Crashed (if Z.of_nat (length (worldToString w)) =? 65535
             then Out_of_bounds_write (-1) 0
             else Bad_alloc (Z.of_nat (length (worldToString w)) - 65535)).
Proof.
  intros Hn Hc. rewrite doReceive_world_frame by exact Hc.
  set (n := Z.of_nat (length (worldToString w))) in *.
  assert (Hwrap : wrap16s n = n - 65536)
    by (unfold wrap16s; Z.div_mod_to_equations; lia).
  rewrite Hwrap. unfold decompress, new_array.
  destruct (Z.eqb_spec n 65535) as [->|Hne].
  - reflexivity.
  - destruct (Z.ltb_spec (n - 65536 + 1) 0) as [_|]; [|lia].
    cbn [mbind Outcome_bind]. do 2 f_equal. lia.
Qed.

End ClientSocket.

(** ** What the client's threads can do to the observer *)

Lemma readPacket_no_input `{Simulation} (b : NetworkBuffer) (input : InputPacket) :
  fst (readPacket b) <> Return (Some (PacketInput input)).
Proof.
  unfold readPacket.
  destruct (Buffer.read16 b) as [magic b1].
  destruct (magic =? NetworkMagic); [|discriminate]. cbn [negb].
  destruct (Buffer.read16 b1) as [type b2].
  destruct (type =? PacketType_code InputType); [discriminate|].
  destruct (type =? PacketType_code PingType).
  { destruct (Buffer.read16 b2) as [clientPing b3]. discriminate. }
  destruct (type =? PacketType_code WorldType); discriminate.
Qed.

Section ClientThreads.
Context `{ser : Serialization}.
Import NetworkClientObserver.

Lemma grows_plainly_refl (e : Env) : grows_plainly e e 0.
Proof. exists []. rewrite app_nil_r. repeat split. constructor. Qed.

Lemma grows_plainly_emit (line : DebugLine) (e : Env) :
  grows_plainly e (emit (EvDebug line) e) 0.
Proof.
  exists [EvDebug line]. repeat split. repeat constructor.
Qed.

Lemma grows_plainly_trans (e1 e2 e3 : Env) (n m : nat) :
  grows_plainly e1 e2 n -> grows_plainly e2 e3 m -> grows_plainly e1 e3 (n + m).
Proof.
  intros (tr1 & H1 & F1 & L1) (tr2 & H2 & F2 & L2).
  exists (tr1 ++ tr2). rewrite H2, H1, <- app_assoc. split; [reflexivity|].
  split; [apply Forall_app; split; assumption|].
  unfold stepped in *. rewrite omap_app, length_app. lia.
Qed.

Lemma receiveWorld_frame (incoming : list byte) (s : t) (e : Env) (r : Received) :
  receiveWorld incoming s e = Done r ->
  alive_ (state r) = alive_ s /\ inputs (state r) = inputs s
  /\ lastState (state r) = lastState s /\ env r = e /\ sent r = []
  /\ exists taken, incoming = taken ++ rest r /\ (4 <= length taken)%nat.
Proof.
  unfold receiveWorld.
  destruct incoming as [|c1 [|c2 [|u1 [|u2 inc]]]];
    cbn [socket_read16 mbind Outcome_bind]; try discriminate.
  destruct (new_array (wrap16s (parse16 [c1; c2]))) as [data| |f];
    cbn [mbind Outcome_bind]; try discriminate.
  unfold socket_readBytes.
  destruct (Z.of_nat (length inc) <? wrap16s (parse16 [c1; c2]));
    cbn [mbind Outcome_bind]; try discriminate.
  destruct (decompress _ _) as [what| |f]; cbn [mbind Outcome_bind];
    try discriminate.
  assert (Hsplit : c1 :: c2 :: u1 :: u2 :: inc
                   = (c1 :: c2 :: u1 :: u2
                      :: take (Z.to_nat (wrap16s (parse16 [c1; c2]))) inc)
                     ++ drop (Z.to_nat (wrap16s (parse16 [c1; c2]))) inc)
    by (cbn [app]; rewrite take_drop; reflexivity).
  destruct (worldFromString (c_string what)); intros [= <-];
    cbn [state env sent rest setWorld alive_ inputs lastState];
    (repeat split; try reflexivity);
    (eexists; split; [exact Hsplit | cbn [length]; lia]).
Qed.

Lemma doReceive_frame (incoming : list byte) (s : t) (e : Env) (r : Received) :
  doReceive incoming s e = Done r ->
  alive_ (state r) = alive_ s /\ inputs (state r) = inputs s
  /\ lastState (state r) = lastState s
  /\ stage (env r) = stage e
  /\ grows_plainly e (env r) 0
  /\ exists taken, incoming = taken ++ rest r /\ (2 <= length taken)%nat.
Proof.
  unfold doReceive.
  destruct incoming as [|m1 [|m2 inc]];
    cbn [socket_read16 mbind Outcome_bind]; try discriminate.
  destruct (negb (wrap16s (parse16 [m1; m2]) =? NetworkMagic)).
  { intros [= <-]. cbn [state env rest].
    repeat split; [apply grows_plainly_emit|].
    exists [m1; m2]. split; [reflexivity | cbn; lia]. }
  destruct inc as [|t1 [|t2 inc]];
    cbn [socket_read16 mbind Outcome_bind]; try discriminate.
  destruct (wrap16s (parse16 [t1; t2]) =? PacketType_code WorldType).
  { intros Hworld.
    destruct (receiveWorld_frame inc s e r Hworld)
      as (Ha & Hi & Hl & He & _ & taken & Htaken & Hlen).
    rewrite He. repeat split; try assumption; [apply grows_plainly_refl|].
    exists (m1 :: m2 :: t1 :: t2 :: taken). rewrite Htaken.
    split; [reflexivity | cbn [length]; lia]. }
  destruct (wrap16s (parse16 [t1; t2]) =? PacketType_code PingType).
  { destruct inc as [|p1 [|p2 inc]];
      cbn [socket_read16 mbind Outcome_bind]; try discriminate.
    intros [= <-]. cbn [state env rest].
    repeat split; [apply grows_plainly_refl|].
    exists [m1; m2; t1; t2; p1; p2]. split; [reflexivity | cbn; lia]. }
  intros [= <-]. cbn [state env rest].
  repeat split; [apply grows_plainly_refl|].
  exists [m1; m2; t1; t2]. split; [reflexivity | cbn; lia].
Qed.


Lemma doClientInput_frame (datagram : list byte) (s : t) (e : Env) :
  (doClientInput datagram s e).1.2 = s
  /\ stage (doClientInput datagram s e).2 = stage e
  /\ grows_plainly e (doClientInput datagram s e).2 0.
Proof.
  unfold doClientInput.
  destruct (Buffer.read16 (receive 1024 datagram)) as [magic b].
  destruct (negb (magic =? NetworkMagic)).
  { repeat split. apply grows_plainly_emit. }
  pose proof (readPacket_no_input b) as Hno.
  destruct (readPacket b) as [[[[input|id|w]|]|ex] b']; cbn [fst snd] in *.
  - exfalso. apply (Hno input). reflexivity.
  - repeat split. apply grows_plainly_refl.
  - repeat split. apply grows_plainly_refl.
  - repeat split. apply grows_plainly_refl.
  - repeat split. apply grows_plainly_emit.
Qed.

Lemma client_step_plain (c : ClientStep) (s : t) (e : Env) :
  inputs s = ∅ ->
  inputs (client_step c (s, e)).1 = ∅
  /\ grows_plainly e (client_step c (s, e)).2 (if is_pass c then 1 else 0).
Proof.
  intros Hempty. destruct c as [incoming|datagram|]; cbn [client_step is_pass fst snd].
  - destruct (doReceive incoming s e) as [r| |f] eqn:Hr; cbn [fst snd];
      try (split; [exact Hempty | apply grows_plainly_refl]).
    destruct (doReceive_frame incoming s e r Hr) as (_ & Hi & _ & _ & Hg & _).
    split; [rewrite Hi; exact Hempty | exact Hg].
  - destruct (doClientInput_frame datagram s e) as (Hs & _ & Hg).
    destruct (doClientInput datagram s e) as [[go s'] e']. cbn [fst snd] in *.
    subst s'. split; [exact Hempty | exact Hg].
  - unfold call, beforeLogic, getWorld, afterLogic. cbn [fst snd].
    destruct (world s) as [w|]; cbn [inputs lastState world alive_];
      rewrite Hempty, map_size_empty; change (0 <? Z.of_nat 0) with false;
      cbv iota; cbn [fst snd inputs]; (split; [first [exact Hempty | reflexivity]|]).
    + exists [EvUpdateState Snap w; EvLogic (getTicks (updateState w (stage e)))].
      unfold call_logic, call_updateState. cbn [trace stage].
      rewrite <- app_assoc. repeat split. repeat constructor.
    + exists [EvLogic (getTicks (stage e))].
      unfold call_logic. cbn [trace stage]. repeat split. repeat constructor.
Qed.

(** X16.  The client never receives an input and so never replays.  Its
    input thread leaves the observer as it finds it for every datagram
    ([readPacket] yields no Input packet), so whatever the two threads and
    the match loop do, from a new observer on, the table of pending inputs
    stays empty, and the stage is only ever given a new snapshot or stepped
    once per pass: no baseline is restored for a replay and the sounds are
    never switched. *)
Theorem client_never_replays
    (cs : list ClientStep) (datagram : list byte) (s : t) (e : Env) :
  (doClientInput datagram s e).1.2 = s
  /\ inputs (client_steps cs (new, e)).1 = ∅
  /\ exists tr,
       trace (client_steps cs (new, e)).2 = trace e ++ tr
       /\ Forall (fun ev => plain_event ev = true) tr
       /\ length (stepped tr) = length (List.filter is_pass cs).
Proof.
  split; [apply doClientInput_frame|].
  assert (Hgen : forall se, inputs se.1 = ∅ ->
            inputs (client_steps cs se).1 = ∅
            /\ grows_plainly se.2 (client_steps cs se).2
                 (length (List.filter is_pass cs))).
  { induction cs as [|c cs IH]; intros [s0 e0] Hempty; cbn [fst snd] in *.
    - split; [exact Hempty | apply grows_plainly_refl].
    - destruct (client_step_plain c s0 e0 Hempty) as [Hempty' Hg].
      destruct (IH (client_step c (s0, e0)) Hempty') as [Hfinal Hg'].
      unfold client_steps in *. cbn [foldl List.filter].
      split; [exact Hfinal|].
      pose proof (grows_plainly_trans _ _ _ _ _ Hg Hg') as Hall.
      destruct (is_pass c); cbn [length]; exact Hall. }
  destruct (Hgen (new, e)) as [Hempty Hg]; [reflexivity|].
  split; [exact Hempty | exact Hg].
Qed.

End ClientThreads.

(** ** NetworkBehavior *)

Lemma setInput_monotone_aux (calls : list (Z * Input)) (b : NetworkBehavior.t) :
  NetworkBehavior.lastTick b
  <= NetworkBehavior.lastTick (NetworkBehavior.setInputs calls b)
  /\ NetworkBehavior.history (NetworkBehavior.setInputs calls b)
     = NetworkBehavior.history b.
Proof.
  revert b. induction calls as [|c calls IH]; intros b;
    [unfold NetworkBehavior.setInputs; cbn [foldl]; split; [lia | reflexivity]|].
  unfold NetworkBehavior.setInputs in *. cbn [foldl].
  destruct (IH (NetworkBehavior.setInput c.1 c.2 b)) as [Hle Hhist].
  unfold NetworkBehavior.setInput in *.
  destruct (Z.ltb_spec (NetworkBehavior.lastTick b) (wrap32 c.1));
    cbn [NetworkBehavior.lastTick NetworkBehavior.history] in *;
    split; solve [lia | assumption].
Qed.

(** X17.  The behaviour of the remote player keeps the input of the newest
    tick it was given: [lastTick] never goes back, no input given has a
    newer tick, and what it holds is what it started with or one of the
    inputs given.  An input whose tick is not newer than [lastTick] is
    dropped, so a new behaviour drops every input for tick 0.  [history] is
    never written. *)
Theorem setInput_keeps_the_newest
    (calls : list (Z * Input)) (b : NetworkBehavior.t) (tick : Z) (input : Input) :
  NetworkBehavior.lastTick b
  <= NetworkBehavior.lastTick (NetworkBehavior.setInputs calls b)
  /\ (forall c, c ∈ calls ->
      wrap32 c.1 <= NetworkBehavior.lastTick (NetworkBehavior.setInputs calls b))
  /\ ((NetworkBehavior.lastTick (NetworkBehavior.setInputs calls b),
       NetworkBehavior.lastInput (NetworkBehavior.setInputs calls b))
      = (NetworkBehavior.lastTick b, NetworkBehavior.lastInput b)
      \/ exists c, c ∈ calls
           /\ NetworkBehavior.lastTick (NetworkBehavior.setInputs calls b) = wrap32 c.1
           /\ NetworkBehavior.lastInput (NetworkBehavior.setInputs calls b) = c.2)
  /\ NetworkBehavior.history (NetworkBehavior.setInputs calls b)
     = NetworkBehavior.history b
  /\ (wrap32 tick <= NetworkBehavior.lastTick b ->
      NetworkBehavior.setInput tick input b = b)
  /\ NetworkBehavior.setInput 0 input NetworkBehavior.new = NetworkBehavior.new.
Proof.
  assert (Hone : forall t i b0,
            let b1 := NetworkBehavior.setInput t i b0 in
            NetworkBehavior.lastTick b0 <= NetworkBehavior.lastTick b1
            /\ wrap32 t <= NetworkBehavior.lastTick b1
            /\ (b1 = b0
                \/ (NetworkBehavior.lastTick b1 = wrap32 t
                    /\ NetworkBehavior.lastInput b1 = i))
            /\ NetworkBehavior.history b1 = NetworkBehavior.history b0).
  { intros t i b0. unfold NetworkBehavior.setInput.
    destruct (Z.ltb_spec (NetworkBehavior.lastTick b0) (wrap32 t)); cbn.
    - repeat split; [lia | lia | right; split; reflexivity].
    - repeat split; [lia | lia | left; reflexivity]. }
  split; [|split; [|split; [|split; [|split]]]].
  - revert b. induction calls as [|c calls IH]; intros b; [cbn; lia|].
    unfold NetworkBehavior.setInputs in *. cbn [foldl].
    etrans; [|apply IH]. apply Hone.
  - revert b. induction calls as [|c calls IH]; intros b c' Hin.
    + inversion Hin.
    + unfold NetworkBehavior.setInputs in *. cbn [foldl].
      apply elem_of_cons in Hin as [->|Hin].
      * etrans; [|apply (proj1 (setInput_monotone_aux calls _))].
        apply Hone.
      * apply IH, Hin.
  - revert b. induction calls as [|c calls IH]; intros b; [left; reflexivity|].
    unfold NetworkBehavior.setInputs in *. cbn [foldl].
    destruct (IH (NetworkBehavior.setInput c.1 c.2 b)) as [Hsame|(c' & Hin & Ht & Hi)].
    + destruct (Hone c.1 c.2 b) as (_ & _ & [Heq|[Ht Hi]] & _).
      * left. rewrite Hsame, Heq. reflexivity.
      * right. exists c. split; [left|]. injection Hsame as -> ->.
        split; assumption.
    + right. exists c'. split; [right; exact Hin|]. split; assumption.
  - revert b. induction calls as [|c calls IH]; intros b; [reflexivity|].
    unfold NetworkBehavior.setInputs in *. cbn [foldl].
    rewrite IH. apply Hone.
  - intros Hold. unfold NetworkBehavior.setInput.
    destruct (Z.ltb_spec (NetworkBehavior.lastTick b) (wrap32 tick)); [lia|].
    reflexivity.
  - reflexivity.
Qed.

(** ** Connecting *)

(** X18.  The client calls [connectReliable] until it succeeds, five times
    at most, and rests 1000 ms after every failure: it goes on with the
    socket of the first call that succeeds among the first five, having
    rested 1000 ms for each call before; when all five fail it has rested
    5000 ms and throws "Could not connect".  A sixth call is never made:
    what later calls would do changes nothing. *)
Theorem connect_tries_five_times (attempt other : nat -> option Z) (k : nat) (socket : Z) :
  ((k < 5)%nat ->
   attempt k = Some socket ->
   (forall j, (j < k)%nat -> attempt j = None) ->
   connect attempt = Connected socket (S k) (1000 * Z.of_nat k))
  /\ ((forall j, (j < 5)%nat -> attempt j = None) ->
      connect attempt = Could_not_connect 5 5000)
  /\ ((forall j, (j < 5)%nat -> other j = attempt j) ->
      connect other = connect attempt).
Proof.
  unfold connect, maxTries. cbn [connect_from]. repeat split.
  - intros Hk Hsome Hnone.
    destruct k as [|[|[|[|[|k]]]]]; [| | | | |lia];
      repeat (rewrite Hnone by lia); rewrite Hsome; reflexivity.
  - intros Hnone. rewrite !Hnone by lia. reflexivity.
  - intros Hsame. rewrite !Hsame by lia. reflexivity.
Qed.

(** ** More runs of the model *)

Lemma stored_lossless : Lossless stored_ser.
Proof.
  split. intros text dest Hfit. cbn.
  rewrite Nat2Z.id, Nat.min_l by exact Hfit.
  rewrite firstn_all. unfold poke. change (Z.to_nat 0) with 0%nat.
  rewrite take_0. cbn [app]. apply take_app_length.
Qed.

(** X1 on a buffer of one byte: an integer, a string of 300 bytes and an
    integer again. *)
Lemma writes_are_sent_in_order_witness :
  Buffer.send
    (put_all [Put16 7; PutString (replicate 300 "a"%byte); Put32 9] (Buffer.new 1))
  = dump16 7 ++ (dump16 300 ++ replicate 300 "a"%byte) ++ dump32 9.
Proof.
  destruct (writes_are_sent_in_order 1
              [Put16 7; PutString (replicate 300 "a"%byte); Put32 9])
    as [Hsend _]; [reflexivity|].
  rewrite Hsend. reflexivity.
Defined.

(** X3 on the two bytes of the magic alone. *)
Lemma wrong_magic_is_no_packet_witness :
  fst (@readPacket counter_sim (receive 1024 [xd9; x7f])) = Return None.
Proof.
  apply (wrong_magic_is_no_packet (H := counter_sim) 1024 [xd9; x7f]).
  intros third rest. discriminate.
Defined.

(** X5 on two Ping frames in one datagram: the first is decoded. *)
Lemma ping_frame_with_a_byte_behind_is_decoded_witness :
  fst (@readPacket counter_sim
         (receive 1024
            (sendPacket (ser := stored_ser) (PacketPing 7)
             ++ xd9 :: [x7f; x00; x01; x00; x08])))
  = Return (Some (PacketPing 7)).
Proof.
  apply (ping_frame_with_a_byte_behind_is_decoded (ser := stored_ser)
           1024 7 xd9 [x7f; x00; x01; x00; x08]).
  reflexivity.
Defined.

(** X6 on the string "ab" behind a four byte header. *)
Lemma string_round_trip_witness :
  Buffer.readString
    (at_field 128 [xd9; x7f; x00; x00] (wire (PutString ["a"; "b"]%byte)) [])
  = (Some ["a"; "b"]%byte,
     Buffer.advance 2
       (Buffer.advance 2
          (at_field 128 [xd9; x7f; x00; x00] (wire (PutString ["a"; "b"]%byte)) []))).
Proof.
  destruct (string_round_trip 128 [xd9; x7f; x00; x00] ["a"; "b"]%byte [])
    as [Hread _]; [vm_compute; discriminate | reflexivity |].
  destruct Hread as [Hread _]; [discriminate|]. exact Hread.
Defined.


(** X10 on a server after one pass: the echo of the ping 40000 changes
    nothing. *)
Lemma high_ping_is_never_matched_witness :
  NetworkServerObserver.handlePacket 2100 (PingPacket_new 40000)
    (server_run [ServerPass (NetworkServerObserver.mkTick 1500 1500 pressed_a)]
       (server_0, env0 0)).1
    (server_run [ServerPass (NetworkServerObserver.mkTick 1500 1500 pressed_a)]
       (server_0, env0 0)).2
  = server_run [ServerPass (NetworkServerObserver.mkTick 1500 1500 pressed_a)]
      (server_0, env0 0).
Proof.
  destruct (high_ping_is_never_matched (sim := counter_sim)
              [ServerPass (NetworkServerObserver.mkTick 1500 1500 pressed_a)]
              0 2100 (env0 0) 40000) as [_ Hhigh].
  apply Hhigh. split; [discriminate | reflexivity].
Defined.

(** X13 on the small simulation: the world 9 reaches the slot. *)
Lemma world_frame_fills_the_slot_witness :
  NetworkClientObserver.doReceive (ser := stored_ser)
    (sendPacket (ser := stored_ser) (PacketWorld (9 : @World counter_sim))
     ++ [xd9; x7f])
    NetworkClientObserver.new (env0 0)
  = Done (NetworkClientObserver.mkReceived [xd9; x7f] []
            (NetworkClientObserver.setWorld (9 : @World counter_sim)
               NetworkClientObserver.new)
            (env0 0)).
Proof.
  apply (world_frame_fills_the_slot (ser := stored_ser)
           (bounded := stored_bounded) (lossless := stored_lossless)
           (9 : @World counter_sim) [xd9; x7f] NetworkClientObserver.new (env0 0)).
  - reflexivity.
  - reflexivity.
  - intros Hin. apply list_elem_of_singleton in Hin. discriminate.
Defined.

(** X14 on a world of 40000 letters. *)
Lemma oversized_world_stops_the_client_witness :
  NetworkClientObserver.doReceive (ser := long_ser)
    (sendPacket (ser := long_ser) (PacketWorld (40000 : @World counter_sim)) ++ [])
    NetworkClientObserver.new (env0 0)
  = Crashed (Bad_alloc (-25535)).
Proof.
  apply (oversized_world_stops_the_client (ser := long_ser)
           (40000 : @World counter_sim) [] NetworkClientObserver.new (env0 0)).
  - cbn [worldToString long_ser]. rewrite length_replicate, Z2Nat.id by lia. lia.
  - reflexivity.
Defined.


(** X18 on a server that answers the third call. *)
Lemma connect_tries_five_times_witness :
  connect (fun k => if (k =? 2)%nat then Some 11 else None)
  = Connected 11 3 2000.
Proof.
  apply (connect_tries_five_times
           (fun k => if (k =? 2)%nat then Some 11 else None)
           (fun _ => None) 2 11).
  - lia.
  - reflexivity.
  - intros j Hj. destruct j as [|[|j]]; [reflexivity | reflexivity | lia].
Defined.

(** X7 on two pings queued on a new server: the first round sends the
    first. *)
Lemma outBox_is_sent_in_order_witness :
  (drain (ser := stored_ser) 1
     (queue_all [PacketPing 1; PacketPing 2] server_0)).1
  = [sendPacket (ser := stored_ser) (PacketPing 1)].
Proof.
  destruct (outBox_is_sent_in_order (ser := stored_ser)
              [PacketPing 1; PacketPing 2] server_0 1) as (_ & Hfront & _).
  destruct Hfront as [Hsent _]; [cbn; lia|]. exact Hsent.
Defined.

(** X17 on a behaviour that holds the input of tick 5: the input of tick 3
    that comes after it is dropped. *)
Lemma setInput_keeps_the_newest_witness :
  NetworkBehavior.setInput 3 Input_default (NetworkBehavior.mk 5 pressed_a ∅)
  = NetworkBehavior.mk 5 pressed_a ∅.
Proof.
  destruct (setInput_keeps_the_newest [] (NetworkBehavior.mk 5 pressed_a ∅)
              3 Input_default) as (_ & _ & _ & _ & Hold & _).
  apply Hold. discriminate.
Defined.
